(** * process_boosters.py: autocrop and resize of the booster images

    A shallow embedding of [src/process_boosters.py] and the properties of
    its pipeline (list the directory, filter by extension, then for each
    file: open, bounding box, crop, scale, resize, save).

    The script is forty lines of Python on top of Pillow and [os].  The
    Python is embedded statement by statement in a state-and-exception
    monad over a [world] (the files on disk and the lines printed so far).
    What the script calls in Python, Pillow and [os] is modelled below
    ([Float64], [PIL], [Str], [OsPath], and the file operations of the
    section [Script]) after the behaviour of CPython 3 and of Pillow from
    9.1 on, the first release with [Image.Resampling]; what Pillow
    computes and the script never inspects (the decoders, the Lanczos
    resampler, the PNG encoder) and what the system decides (the faults
    of the file system, the memory for a resized image, the text stdout
    can encode) is left abstract as section variables.

    The file has two parts: the definitions, then the properties. *)

From Stdlib Require Import ZArith Lia Bool List Ascii String.
From Stdlib Require Import Floats.SpecFloat.
From stdpp Require Import base option list strings pretty gmap.

Local Open Scope Z_scope.

(* ===================================================================== *)
(** ** Python floats: IEEE-754 binary64                                    *)
(* ===================================================================== *)

Module Float64.

Definition prec : Z := 53.
Definition emax : Z := 1024.

Definition float : Type := spec_float.

(** [float(n)] for a Python int: the nearest binary64 value, ties to
    even; CPython raises OverflowError rather than return infinity. *)
Definition of_int (n : Z) : option float :=
  match binary_normalize prec emax n 0 false with
  | S754_finite s m e => Some (S754_finite s m e)
  | S754_zero s => Some (S754_zero s)
  | _ => None
  end.

Definition mul (x y : float) : float := SFmul prec emax x y.
Definition div (x y : float) : float := SFdiv prec emax x y.

(** [int(x)]: truncation toward zero; [None] stands for the
    OverflowError / ValueError CPython raises on infinities and NaN. *)
Definition trunc (x : float) : option Z :=
  match x with
  | S754_zero _ => Some 0
  | S754_finite s m e =>
      let a := match e with
               | Zneg k => Z.shiftr (Zpos m) (Zpos k)
               | _ => Z.shiftl (Zpos m) e
               end in
      Some (if s then - a else a)
  | _ => None
  end.

(** [int(w * (t / h))] on ints [t], [w] and [h], for [h] not 0:
    [t / h] is rounded to binary64, then the product is, then the
    result is truncated.  [None] when a conversion overflows. *)
Definition scaled (t w h : Z) : option Z :=
  match of_int t, of_int h, of_int w with
  | Some a, Some b, Some c => trunc (mul c (div a b))
  | _, _, _ => None
  end.

(** How the rounding of SpecFloat is read: the exact value [num / den]
    has integer part [m], and [l] says where it sits between [m] and
    [m + 1] (on [m], below the middle, on it, above it). *)
Definition located (num den m : Z) (l : location) : Prop :=
  match l with
  | loc_Exact => num = m * den
  | loc_Inexact c =>
      m * den < num < (m + 1) * den ∧ (2 * num ?= (2 * m + 1) * den) = c
  end.

(** The same for a shifted mantissa with its round and sticky bits. *)
Definition rec_ok (num den : Z) (mrs : shr_record) : Prop :=
  0 <= shr_m mrs ∧ located num den (shr_m mrs) (loc_of_shr_record mrs).

End Float64.

(* ===================================================================== *)
(** ** Python values shared by the models                                  *)
(* ===================================================================== *)

(** An exception object: its class and the text [str(e)] gives. *)
Record exn : Type := Exn { exn_class : string; exn_msg : string }.

Inductive result (A : Type) : Type :=
| Ok (a : A)
| Raise (e : exn).
Arguments Ok {A} a.
Arguments Raise {A} e.

#[global] Instance result_ret : MRet result := fun A a => Ok a.
#[global] Instance result_bind : MBind result := fun A B f r =>
  match r with
  | Ok a => f a
  | Raise e => Raise e
  end.

Definition ZeroDivisionError : exn :=
  Exn "ZeroDivisionError" "division by zero".
Definition OverflowError (msg : string) : exn := Exn "OverflowError" msg.
Definition ValueError (msg : string) : exn := Exn "ValueError" msg.
Definition OSError (msg : string) : exn := Exn "OSError" msg.
Definition MemoryError : exn := Exn "MemoryError" "".

(** [a / b] on two ints: the quotient, rounded to nearest.  CPython
    divides the ints and rounds once; here both are converted first, which
    gives the same float as long as both are below 2^53, as the sizes of
    an image are. *)
Definition truediv (a b : Z) : result Float64.float :=
  if b =? 0 then Raise ZeroDivisionError
  else match Float64.of_int a, Float64.of_int b with
       | Some x, Some y => Ok (Float64.div x y)
       | _, _ => Raise (OverflowError "integer division result too large for a float")
       end.

(** [n * x] with [n] an int and [x] a float: [n] is converted first. *)
Definition int_mul_float (n : Z) (x : Float64.float) : result Float64.float :=
  match Float64.of_int n with
  | Some y => Ok (Float64.mul y x)
  | None => Raise (OverflowError "int too large to convert to float")
  end.

(** [int(x)] *)
Definition int_of_float (x : Float64.float) : result Z :=
  match Float64.trunc x with
  | Some n => Ok n
  | None =>
      match x with
      | S754_nan => Raise (ValueError "cannot convert float NaN to integer")
      | _ => Raise (OverflowError "cannot convert float infinity to integer")
      end
  end.

(* ===================================================================== *)
(** ** Pillow images                                                       *)
(* ===================================================================== *)

Module PIL.

(** One RGBA pixel; each band is an unsigned byte. *)
Record pixel : Type := RGBA { red : N; green : N; blue : N; alpha : N }.

Definition zero_pixel : pixel := RGBA 0 0 0 0.

(** An image in mode "RGBA": its size and its raster, addressed (x, y)
    with (0, 0) the upper left corner.  Only the raster inside the size
    is meaningful. *)
Record image : Type := Image {
  xsize : nat;
  ysize : nat;
  getpixel : nat -> nat -> pixel
}.

(** [img.size] *)
Definition size (im : image) : Z * Z := (Z.of_nat (xsize im), Z.of_nat (ysize im)).

(** Layouts a decoder hands over before [convert("RGBA")]: grey, grey
    with alpha, colour, colour with alpha, all with 8-bit bands.  A layout
    without alpha may come with [info["transparency"]] (the tRNS chunk of
    a PNG): the one grey level, or the one colour, that stands for
    transparent.  An image of any other mode (palette, bilevel, ...)
    reaches the script only as the RGBA raster [convert] makes of it, and
    is covered by [ModeRGBA] with that raster. *)
Inductive native : Type :=
| ModeL (w h : nat) (px : nat -> nat -> N) (transparency : option N)
| ModeLA (w h : nat) (px : nat -> nat -> N * N)
| ModeRGB (w h : nat) (px : nat -> nat -> N * N * N)
    (transparency : option (N * N * N))
| ModeRGBA (w h : nat) (px : nat -> nat -> pixel).

(** The alpha [convert_transparent] gives a pixel already widened to
    r, g, b: 0 where it is the key colour (each component of the key
    taken [& 0xff]), 255 elsewhere. *)
Definition key_alpha (key : option (N * N * N)) (r g b : N) : N :=
  match key with
  | Some (kr, kg, kb) =>
      if (r =? N.land kr 255) && (g =? N.land kg 255) && (b =? N.land kb 255)
      then 0 else 255
  | None => 255
  end%N.

(** [im.convert("RGBA")]: a layout without alpha gets alpha 255, except
    that with [info["transparency"]] the pixels of the key colour get
    alpha 0 and keep their colour. *)
Definition convert_RGBA (src : native) : image :=
  match src with
  | ModeL w h px t =>
      Image w h (fun x y =>
        let l := px x y in
        RGBA l l l (key_alpha (option_map (fun k => (k, k, k)) t) l l l))
  | ModeLA w h px => Image w h (fun x y => let '(l, a) := px x y in RGBA l l l a)
  | ModeRGB w h px t =>
      Image w h (fun x y => let '(r, g, b) := px x y in RGBA r g b (key_alpha t r g b))
  | ModeRGBA w h px => Image w h px
  end.

(** *** getbbox

    Pillow's ImagingGetBBox, for a mode with alpha: the mask keeps the
    alpha byte only.  The four C ints [bbox[0..3]] start at
    [xsize, -1, 0, 0]; rows are scanned top to bottom and each row left
    to right. *)
Definition box : Type := (Z * Z * Z * Z)%type.

Definition has_alpha (im : image) (x y : nat) : bool :=
  negb (N.eqb (alpha (getpixel im x y)) 0).

Definition scan_pixel (im : image) (y : nat) (st : box * bool) (x : nat)
  : box * bool :=
  let '((b0, b1, b2, b3), has_data) := st in
  if has_alpha im x y then
    let b0 := if Z.of_nat x <? b0 then Z.of_nat x else b0 in
    let b2 := if Z.of_nat x >=? b2 then Z.of_nat x + 1 else b2 in
    ((b0, b1, b2, b3), true)
  else st.

Definition scan_row (im : image) (bb : box) (y : nat) : box :=
  let '((b0, b1, b2, b3), has_data) :=
    fold_left (scan_pixel im y) (seq 0 (xsize im)) (bb, false) in
  if has_data then
    let b1 := if b1 <? 0 then Z.of_nat y else b1 in
    (b0, b1, b2, Z.of_nat y + 1)
  else (b0, b1, b2, b3).

Definition getbbox (im : image) : option box :=
  let '(b0, b1, b2, b3) :=
    fold_left (scan_row im) (seq 0 (ysize im)) (Z.of_nat (xsize im), -1, 0, 0) in
  if b1 <? 0 then None else Some (b0, b1, b2, b3).

(** *** crop

    [im.crop((x0, y0, x1, y1))]: the region [x0, x1) x [y0, y1); what lies
    outside the source is filled with zero.  (Pillow also checks the size
    of the region against its pixel limit; a region inside an image that
    was opened has passed that check already.) *)
Definition crop (im : image) (b : box) : result image :=
  let '(x0, y0, x1, y1) := b in
  if x1 <? x0 then
    Raise (ValueError "Coordinate 'right' is less than 'left'")
  else if y1 <? y0 then
    Raise (ValueError "Coordinate 'lower' is less than 'upper'")
  else
    Ok (Image (Z.to_nat (x1 - x0)) (Z.to_nat (y1 - y0))
          (fun x y =>
             let sx := x0 + Z.of_nat x in
             let sy := y0 + Z.of_nat y in
             if (0 <=? sx) && (sx <? Z.of_nat (xsize im))
                && (0 <=? sy) && (sy <? Z.of_nat (ysize im))
             then getpixel im (Z.to_nat sx) (Z.to_nat sy)
             else zero_pixel)).

(** *** resize

    [im.resize((w, h), Image.Resampling.LANCZOS)].  The resampler is a
    parameter: the script never looks at the resampled pixels.  Given the
    image and the new size it hands back the new raster, or nothing when
    the new image cannot be allocated, and [resize] raises MemoryError.
    An unchanged size is a copy and does not resample. *)
Section Resize.
Variable lanczos : image -> nat -> nat -> option (nat -> nat -> pixel).

Definition resize (im : image) (sz : Z * Z) : result image :=
  let '(w, h) := sz in
  if (w <=? 0) || (h <=? 0) then
    Raise (ValueError "height and width must be > 0")
  else if (w =? Z.of_nat (xsize im)) && (h =? Z.of_nat (ysize im)) then
    Ok im
  else
    match lanczos im (Z.to_nat w) (Z.to_nat h) with
    | Some raster => Ok (Image (Z.to_nat w) (Z.to_nat h) raster)
    | None => Raise MemoryError
    end.
End Resize.

End PIL.

(* ===================================================================== *)
(** ** Python strings and [os.path]                                        *)
(* ===================================================================== *)

Module Str.

(** [c.lower()] on one character.  File names are taken as byte strings;
    only A-Z change case.  (No character outside ASCII lowers to one of
    the letters of ".png", ".jpg" or ".jpeg", so the suffix test below
    decides as Python's does.) *)
Definition lower_ascii (c : ascii) : ascii :=
  let n := N_of_ascii c in
  if ((65 <=? n) && (n <=? 90))%N then ascii_of_N (n + 32) else c.

Fixpoint lower (s : string) : string :=
  match s with
  | EmptyString => EmptyString
  | String c s' => String (lower_ascii c) (lower s')
  end.

(** [s.isascii()] *)
Fixpoint isascii (s : string) : bool :=
  match s with
  | EmptyString => true
  | String c s' => (N_of_ascii c <? 128)%N && isascii s'
  end.

(** [s.startswith(p)] and [s.endswith(p)] *)
Definition startswith (s p : string) : bool := String.prefix p s.

Fixpoint endswith (s p : string) : bool :=
  String.eqb s p ||
  match s with
  | EmptyString => false
  | String _ s' => endswith s' p
  end.

(** [s.endswith((p1, ..., pn))] *)
Definition endswith_any (s : string) (ps : list string) : bool :=
  existsb (endswith s) ps.

(** [s.rfind(c)]: the highest index of [c], or -1. *)
Fixpoint rfind_from (c : ascii) (s : string) (i last : Z) : Z :=
  match s with
  | EmptyString => last
  | String a s' => rfind_from c s' (i + 1) (if Ascii.eqb a c then i else last)
  end.
Definition rfind (s : string) (c : ascii) : Z := rfind_from c s 0 (-1).

(** [c in s]; the script does not call it, the lemmas on [splitext] do. *)
Fixpoint contains (c : ascii) (s : string) : bool :=
  match s with
  | EmptyString => false
  | String a s' => Ascii.eqb a c || contains c s'
  end.

(** [s[i:]] for [0 <= i] *)
Definition slice_from (s : string) (i : Z) : string :=
  String.substring (Z.to_nat i) (String.length s - Z.to_nat i) s.

End Str.

Module OsPath.

(** [os.path.join(a, p)] (posixpath, two components) *)
Definition join (a p : string) : string :=
  if Str.startswith p "/" then p
  else if String.eqb a "" || Str.endswith a "/" then a +:+ p
  else a +:+ "/" +:+ p.

(** The while loop of [genericpath._splitext]: is some character of
    [p[i : i + n]] not a dot? *)
Fixpoint has_non_dot (p : string) (i : nat) (n : nat) : bool :=
  match n with
  | O => false
  | S n' =>
      match String.get i p with
      | Some c => if Ascii.eqb c "." then has_non_dot p (S i) n' else true
      | None => true
      end
  end.

(** [os.path.splitext(p)[1]] *)
Definition splitext_ext (p : string) : string :=
  let sepIndex := Str.rfind p "/" in
  let dotIndex := Str.rfind p "." in
  if (dotIndex >? sepIndex)
     && has_non_dot p (Z.to_nat (sepIndex + 1)) (Z.to_nat (dotIndex - (sepIndex + 1)))
  then Str.slice_from p dotIndex
  else "".

End OsPath.

(* ===================================================================== *)
(** ** The world the script runs in                                        *)
(* ===================================================================== *)

(** A path names a regular file with its bytes, or a directory with the
    names [os.listdir] returns for it, in that order.  Distinct paths are
    distinct files: the disk has no symbolic or hard links, so what is
    said below of the path a write goes to is said of the file the path
    names. *)
Inductive node : Type :=
| File (data : list Byte.byte)
| Dir (names : list string).

Record world : Type := World {
  disk : gmap string node;
  stdout : list string   (* one entry per [print] that returned, oldest first *)
}.

(** What the operating system may refuse at a path. *)
Inductive io_fault : Type :=
| NoFault
| ReadDenied
| WriteDenied
| DiskFull (room : nat).       (* a write stops after [room] bytes *)

(** Statements: a state transformer that returns or raises. *)
Definition M (A : Type) : Type := world -> result A * world.

#[global] Instance M_ret : MRet M := fun A a w => (Ok a, w).
#[global] Instance M_bind : MBind M := fun A B f m w =>
  match m w with
  | (Ok a, w') => f a w'
  | (Raise e, w') => (Raise e, w')
  end.

Definition lift {A : Type} (r : result A) : M A := fun w => (r, w).

(** [try: body except Exception as e: handler(e)] *)
Definition try_except {A : Type} (body : M A) (handler : exn -> M A) : M A :=
  fun w =>
    match body w with
    | (Ok a, w') => (Ok a, w')
    | (Raise e, w') => handler e w'
    end.

(** [for x in xs: body(x)] *)
Fixpoint for_each {A : Type} (xs : list A) (body : A -> M unit) : M unit :=
  match xs with
  | [] => mret tt
  | x :: xs' => body x ;; for_each xs' body
  end.

Definition quoted (s : string) : string := "'" +:+ s +:+ "'".

Definition FileNotFoundError (path : string) : exn :=
  Exn "FileNotFoundError" ("[Errno 2] No such file or directory: " +:+ quoted path).
Definition IsADirectoryError (path : string) : exn :=
  Exn "IsADirectoryError" ("[Errno 21] Is a directory: " +:+ quoted path).
Definition NotADirectoryError (path : string) : exn :=
  Exn "NotADirectoryError" ("[Errno 20] Not a directory: " +:+ quoted path).
Definition PermissionError (path : string) : exn :=
  Exn "PermissionError" ("[Errno 13] Permission denied: " +:+ quoted path).
Definition NoSpaceError : exn :=
  Exn "OSError" "[Errno 28] No space left on device".

Section Script.

(** What the environment and Pillow decide and the script does not. *)
Variable fault : string -> io_fault.
Variable decode : list Byte.byte -> result PIL.native.
Variable lanczos : PIL.image -> nat -> nat -> option (nat -> nat -> PIL.pixel).
Variable encode_png : PIL.image -> list Byte.byte.
(** What [sys.stdout] does with a line that is not plain ASCII: it
    writes it, or its encoder raises (UnicodeEncodeError: a file name
    may hold what the encoding of stdout cannot represent). *)
Variable stdout_refuses : string -> option exn.

(** [print(line)].  The text is encoded before any of it is written, so
    a print that raises has written nothing.  Plain ASCII text has an
    encoding on every stdout. *)
Definition print_error (line : string) : option exn :=
  if Str.isascii line then None else stdout_refuses line.

Definition print (line : string) : M unit := fun w =>
  match print_error line with
  | None => (Ok tt, World (disk w) (stdout w ++ [line]))
  | Some e => (Raise e, w)
  end.

(** [os.listdir(path)] *)
Definition os_listdir (path : string) : M (list string) := fun w =>
  match disk w !! path with
  | Some (Dir names) =>
      match fault path with
      | ReadDenied => (Raise (PermissionError path), w)
      | _ => (Ok names, w)
      end
  | Some (File _) => (Raise (NotADirectoryError path), w)
  | None => (Raise (FileNotFoundError path), w)
  end.

(** [open(path, "rb").read()] *)
Definition read_file (path : string) : M (list Byte.byte) := fun w =>
  match disk w !! path with
  | Some (File data) =>
      match fault path with
      | ReadDenied => (Raise (PermissionError path), w)
      | _ => (Ok data, w)
      end
  | Some (Dir _) => (Raise (IsADirectoryError path), w)
  | None => (Raise (FileNotFoundError path), w)
  end.

(** [Image.open(path)], with the load that the [convert] of line 21
    forces: the file is read and handed to a decoder, which returns the
    pixels or raises (a file that is no image, a truncated one, one too
    large to load). *)
Definition Image_open (path : string) : M PIL.native :=
  data ← read_file path;
  lift (decode data).

(** *** Image.save

    [im.save(path)] with no [format]: the format is looked up from the
    lowered extension, the file is opened "w+b" (which empties it), and
    the format's writer runs.  If the writer raises, a file that save
    itself created is removed; one that existed stays as the writer
    left it. *)
Inductive format : Type := PNG | JPEG.

(** Pillow's registry of extensions, at the keys the script can reach
    (lemma [extension_of_image_file]); the empty extension is not in it. *)
Definition EXTENSION (ext : string) : option format :=
  if String.eqb ext ".png" then Some PNG
  else if String.eqb ext ".jpg" || String.eqb ext ".jpeg" then Some JPEG
  else None.

(** [open(path, "w+b")] *)
Definition open_for_write (path : string) : M unit := fun w =>
  match disk w !! path with
  | Some (Dir _) => (Raise (IsADirectoryError path), w)
  | _ =>
      match fault path with
      | WriteDenied => (Raise (PermissionError path), w)
      | _ => (Ok tt, World (<[path := File []]> (disk w)) (stdout w))
      end
  end.

(** [fp.write(data)] on the file just opened *)
Definition write_all (path : string) (data : list Byte.byte) : M unit := fun w =>
  match fault path with
  | DiskFull room =>
      if (room <? length data)%nat then
        (Raise NoSpaceError,
         World (<[path := File (take room data)]> (disk w)) (stdout w))
      else (Ok tt, World (<[path := File data]> (disk w)) (stdout w))
  | _ => (Ok tt, World (<[path := File data]> (disk w)) (stdout w))
  end.

(** The writers.  JPEG has no raw mode for "RGBA" and refuses it. *)
Definition save_handler (fmt : format) (im : PIL.image) (path : string) : M unit :=
  match fmt with
  | PNG => write_all path (encode_png im)
  | JPEG => lift (Raise (OSError "cannot write mode RGBA as JPEG"))
  end.

Definition os_remove (path : string) : M unit := fun w =>
  (Ok tt, World (delete path (disk w)) (stdout w)).

Definition path_exists (path : string) : M bool := fun w =>
  (Ok (bool_decide (is_Some (disk w !! path))), w).

Definition Image_save (im : PIL.image) (path : string) : M unit :=
  let ext := Str.lower (OsPath.splitext_ext path) in
  match EXTENSION ext with
  | None => lift (Raise (ValueError ("unknown file extension: " +:+ ext)))
  | Some fmt =>
      existed ← path_exists path;
      open_for_write path ;;
      try_except (save_handler fmt im path)
        (fun e => (if negb existed then os_remove path else mret tt) ;;
                  lift (Raise e))
  end.

(* =================================================================== *)
(** ** src/process_boosters.py                                         *)
(* =================================================================== *)

Definition BOOSTERS_DIR : string := "public/assets/boosters/".
Definition TARGET_HEIGHT : Z := 300.

(** The filter of the list comprehension:
    [f.lower().endswith(('.png', '.jpg', '.jpeg'))] *)
Definition is_image_file (f : string) : bool :=
  Str.endswith_any (Str.lower f) [".png"; ".jpg"; ".jpeg"].

(** Line 11: [image_files = [f for f in os.listdir(BOOSTERS_DIR) if ...]] *)
Definition list_image_files : M (list string) :=
  names ← os_listdir BOOSTERS_DIR;
  mret (List.filter is_image_file names).

(** Lines 25-29: the autocrop. *)
Definition autocrop (img : PIL.image) : result PIL.image :=
  let bbox := PIL.getbbox img in
  match bbox with
  | Some b => PIL.crop img b
  | None => Ok img      (* No opaque pixels, keep as is *)
  end.

(** Lines 37-43: the new size.  The division is a parameter so that the
    script can be compared with variants that divide differently;
    the script itself is the instance [truediv]. *)
Definition new_size_with (divide : Z -> Z -> result Float64.float)
    (width height : Z) : result (Z * Z) :=
  scale_factor ← divide TARGET_HEIGHT height;
  scaled ← int_mul_float width scale_factor;
  new_width ← int_of_float scaled;
  let new_height := TARGET_HEIGHT in
  (* Ensure new dimensions are at least 1x1 *)
  let new_width := Z.max 1 new_width in
  let new_height := Z.max 1 new_height in
  mret (new_width, new_height).

Definition skipped_line (filename : string) : string :=
  "  Skipping " +:+ filename +:+ ": Image has zero height after cropping.".
Definition processed_line (filename : string) (new_width new_height : Z) : string :=
  "  Processed " +:+ filename +:+ ": Cropped and resized to "
    +:+ pretty new_width +:+ "x" +:+ pretty new_height.
Definition error_line (filename : string) (e : exn) : string :=
  "Error processing " +:+ filename +:+ ": " +:+ exn_msg e.

(** Lines 21-49: the body of [try:] for one file. *)
Definition try_body_with (divide : Z -> Z -> result Float64.float)
    (filename filepath : string) : M unit :=
  native ← Image_open filepath;
  let img := PIL.convert_RGBA native in
  cropped_img ← lift (autocrop img);
  let '(width, height) := PIL.size cropped_img in
  if height =? 0 then
    print (skipped_line filename)      (* continue *)
  else
    '(new_width, new_height) ← lift (new_size_with divide width height);
    resized_img ← lift (PIL.resize lanczos cropped_img (new_width, new_height));
    Image_save resized_img filepath ;;
    print (processed_line filename new_width new_height).

Definition new_size : Z -> Z -> result (Z * Z) := new_size_with truediv.
Definition try_body : string -> string -> M unit := try_body_with truediv.

(** Lines 18-52: one iteration of [for filename in image_files:]. *)
Definition loop_body (filename : string) : M unit :=
  let filepath := OsPath.join BOOSTERS_DIR filename in
  try_except (try_body filename filepath)
    (fun e => print (error_line filename e)).

Definition newline : string := String (ascii_of_N 10) EmptyString.

Definition no_images_line : string :=
  "No image files found in the boosters directory.".
Definition start_line : string :=
  "Processing images: Autocropping and resizing to consistent height...".
Definition complete_line : string := newline +:+ "Image processing complete.".

Definition process_booster_images : M unit :=
  image_files ← list_image_files;
  match image_files with
  | [] => print no_images_line      (* return *)
  | _ =>
      print start_line ;;
      for_each image_files loop_body ;;
      print complete_line
  end.

(** *** Outcomes

    The ways a save and an iteration can end, as relations; the lemmas
    further down show that the functions above stay within them. *)

(** Every way [im.save(path)] can end. *)
Inductive save_outcome (im : PIL.image) (path : string) (w : world)
  : result unit * world → Prop :=
| save_refused e :
    (* unknown extension, or the file cannot be opened for writing *)
    save_outcome im path w (Raise e, w)
| save_written :
    EXTENSION (Str.lower (OsPath.splitext_ext path)) = Some PNG →
    save_outcome im path w
      (Ok tt, World (<[path := File (encode_png im)]> (disk w)) (stdout w))
| save_failed e data :
    (* the writer raised; an existing file keeps what was written *)
    save_outcome im path w
      (Raise e, World (<[path := File data]> (disk w)) (stdout w))
| save_failed_removed e :
    (* the writer raised on a file that save had created *)
    disk w !! path = None →
    save_outcome im path w (Raise e, World (delete path (disk w)) (stdout w)).

(** Every way the body of [try:] can end, with the stage that ended it. *)
Inductive body_outcome (filename filepath : string) (w : world)
  : result unit * world → Prop :=
| body_open_raised e :
    Image_open filepath w = (Raise e, w) →
    body_outcome filename filepath w (Raise e, w)
| body_crop_raised native e :
    Image_open filepath w = (Ok native, w) →
    autocrop (PIL.convert_RGBA native) = Raise e →
    body_outcome filename filepath w (Raise e, w)
| body_skipped native cropped_img :
    Image_open filepath w = (Ok native, w) →
    autocrop (PIL.convert_RGBA native) = Ok cropped_img →
    PIL.ysize cropped_img = 0%nat →
    body_outcome filename filepath w (print (skipped_line filename) w)
| body_size_raised native cropped_img e :
    Image_open filepath w = (Ok native, w) →
    autocrop (PIL.convert_RGBA native) = Ok cropped_img →
    PIL.ysize cropped_img ≠ 0%nat →
    new_size (Z.of_nat (PIL.xsize cropped_img)) (Z.of_nat (PIL.ysize cropped_img))
      = Raise e →
    body_outcome filename filepath w (Raise e, w)
| body_resize_raised native cropped_img new_width new_height e :
    Image_open filepath w = (Ok native, w) →
    autocrop (PIL.convert_RGBA native) = Ok cropped_img →
    PIL.ysize cropped_img ≠ 0%nat →
    new_size (Z.of_nat (PIL.xsize cropped_img)) (Z.of_nat (PIL.ysize cropped_img))
      = Ok (new_width, new_height) →
    PIL.resize lanczos cropped_img (new_width, new_height) = Raise e →
    body_outcome filename filepath w (Raise e, w)
| body_save_raised native cropped_img new_width new_height resized_img e w1 :
    Image_open filepath w = (Ok native, w) →
    autocrop (PIL.convert_RGBA native) = Ok cropped_img →
    PIL.ysize cropped_img ≠ 0%nat →
    new_size (Z.of_nat (PIL.xsize cropped_img)) (Z.of_nat (PIL.ysize cropped_img))
      = Ok (new_width, new_height) →
    PIL.resize lanczos cropped_img (new_width, new_height) = Ok resized_img →
    Image_save resized_img filepath w = (Raise e, w1) →
    body_outcome filename filepath w (Raise e, w1)
| body_saved native cropped_img new_width new_height resized_img w1 :
    Image_open filepath w = (Ok native, w) →
    autocrop (PIL.convert_RGBA native) = Ok cropped_img →
    PIL.ysize cropped_img ≠ 0%nat →
    new_size (Z.of_nat (PIL.xsize cropped_img)) (Z.of_nat (PIL.ysize cropped_img))
      = Ok (new_width, new_height) →
    PIL.resize lanczos cropped_img (new_width, new_height) = Ok resized_img →
    Image_save resized_img filepath w = (Ok tt, w1) →
    body_outcome filename filepath w
      (print (processed_line filename new_width new_height) w1).


End Script.

(* ===================================================================== *)
(** ** A concrete environment for examples                                *)
(* ===================================================================== *)

Module Demo.

Definition byte_of (n : N) : Byte.byte := default Byte.x00 (Byte.of_N (n mod 256)).

(** A toy codec.  Two bytes [w; h] alone are an opaque w x h RGB image;
    followed by w * h bytes they are an RGBA image with those alpha
    values, row by row.  Anything else does not decode. *)
Definition decode (data : list Byte.byte) : result PIL.native :=
  match data with
  | wb :: hb :: rest =>
      let w := N.to_nat (Byte.to_N wb) in
      let h := N.to_nat (Byte.to_N hb) in
      match rest with
      | [] => Ok (PIL.ModeRGB w h (fun _ _ => (10, 20, 30)%N) None)
      | _ =>
          if (length rest =? w * h)%nat then
            Ok (PIL.ModeRGBA w h
                  (fun x y => PIL.RGBA 7 7 7
                                (Byte.to_N (nth (y * w + x) rest Byte.x00))))
          else Raise (Exn "UnidentifiedImageError" "cannot identify image file")
      end
  | _ => Raise (Exn "UnidentifiedImageError" "cannot identify image file")
  end.

Definition lanczos (im : PIL.image) (w h : nat)
  : option (nat -> nat -> PIL.pixel) :=
  Some (fun x y => PIL.getpixel im (x * PIL.xsize im / w) (y * PIL.ysize im / h)).

(** The toy writer keeps the size only, two bytes each. *)
Definition encode_png (im : PIL.image) : list Byte.byte :=
  let w := N.of_nat (PIL.xsize im) in
  let h := N.of_nat (PIL.ysize im) in
  [byte_of (w / 256); byte_of w; byte_of (h / 256); byte_of h].

Definition no_fault (path : string) : io_fault := NoFault.

Definition in_dir (name : string) : string := BOOSTERS_DIR +:+ name.

Definition mkworld (entries : list (string * node)) : world :=
  World (<[BOOSTERS_DIR := Dir (map fst entries)]>
           (list_to_map (map (fun e => (in_dir (fst e), snd e)) entries)))
        [].

(** A stdout that takes every line, and one that takes plain ASCII only. *)
Definition stdout_any (line : string) : option exn := None.

Definition run (fault : string -> io_fault) (w : world) : result unit * world :=
  process_booster_images fault decode lanczos encode_png stdout_any w.

Definition bytes (l : list N) : list Byte.byte := map byte_of l.

End Demo.

(** A small image for the examples: 4 x 3, visible at (1, 1) and (2, 1). *)
Definition strip_4x3 : PIL.image :=
  PIL.Image 4 3 (fun x y =>
    PIL.RGBA 0 0 0 (if ((y =? 1) && ((x =? 1) || (x =? 2)))%nat then 9 else 0)).

(** A fully transparent 2 x 2 image whose colour bands are not zero. *)
Definition clear_2x2 : PIL.image :=
  PIL.Image 2 2 (fun _ _ => PIL.RGBA 200 100 50 0).

(** A 100 x 50 opaque region inside a transparent margin of 50 pixels on
    every side. *)
Definition framed_200x150 : PIL.image :=
  PIL.Image 200 150 (fun x y =>
    PIL.RGBA 1 2 3
      (if ((50 <=? x) && (x <? 150) && (50 <=? y) && (y <? 100))%nat
       then 255 else 0)).

Module Runs.
Import Demo.

(** A 21 x 7 opaque image saved as a.png. *)
Definition world_a : world := mkworld [("a.png", File (bytes [21; 7]%N))].
Definition native_a : PIL.native :=
  PIL.ModeRGB 21 7 (fun _ _ => (10, 20, 30)%N) None.
Definition cropped_a : PIL.image :=
  match autocrop (PIL.convert_RGBA native_a) with
  | Ok c => c
  | Raise _ => PIL.convert_RGBA native_a
  end.

(** A 4 x 3 RGB image, white but for (1, 1) and (2, 1), which are red;
    white is its transparency key. *)
Definition native_keyed : PIL.native :=
  PIL.ModeRGB 4 3
    (fun x y => if ((y =? 1) && ((x =? 1) || (x =? 2)))%nat
                then (255, 0, 0)%N else (255, 255, 255)%N)
    (Some (255, 255, 255)%N).

(** A 200 x 100 opaque image saved as photo.jpg. *)
Definition world_jpg : world := mkworld [("photo.jpg", File (bytes [200; 100]%N))].



(** A directory with a good file, a file that does not decode, a text file
    and a sub-directory named like an image. *)
Definition world_mixed : world :=
  mkworld [("a.png", File (bytes [21; 7]%N));
           ("g.png", File (bytes [5]%N));
           ("notes.txt", File []);
           ("sub.png", Dir [])].


(** A directory without images. *)
Definition world_text : world := mkworld [("notes.txt", File [])].

(** A directory holding only a sub-directory named sub.png. *)
Definition world_subdir : world := mkworld [("sub.png", Dir ["inner.png"])].

End Runs.

(* ===================================================================== *)
(** ** The bounding box: what it should be                                 *)
(* ===================================================================== *)

Module BBox.
Import PIL.

(** A pixel of the image that is not fully transparent. *)
Definition visible (im : image) (x y : nat) : Prop :=
  (x < xsize im)%nat ∧ (y < ysize im)%nat ∧ (0 < alpha (getpixel im x y))%N.

(** What one row scan has established after [n] columns. *)
Record row_inv (im : image) (y n : nat) (b0 b2 c0 c2 : Z) (hd : bool) : Prop := {
  row_none : hd = false →
    c0 = b0 ∧ c2 = b2 ∧ ∀ x, (x < n)%nat → has_alpha im x y = false;
  row_some : hd = true →
    c0 <= b0 ∧ b2 <= c2 ∧
    (∀ x, (x < n)%nat → has_alpha im x y = true → c0 <= Z.of_nat x < c2) ∧
    (c0 = b0 ∨ ∃ x, (x < n)%nat ∧ has_alpha im x y = true ∧ c0 = Z.of_nat x) ∧
    (c2 = b2 ∨ ∃ x, (x < n)%nat ∧ has_alpha im x y = true ∧ c2 = Z.of_nat x + 1) ∧
    (∃ x, (x < n)%nat ∧ has_alpha im x y = true)
}.

(** What the scan has established after the rows above [m]. *)
Definition rows_clear (im : image) (m : nat) : Prop :=
  ∀ x y, (x < xsize im)%nat → (y < m)%nat → has_alpha im x y = false.

Definition seen (im : image) (m : nat) (P : nat → nat → Prop) : Prop :=
  ∃ x y, (x < xsize im)%nat ∧ (y < m)%nat ∧ has_alpha im x y = true ∧ P x y.

Record box_inv (im : image) (m : nat) (b0 b1 b2 b3 : Z) : Prop := {
  box_bound : ∀ x y, (x < xsize im)%nat → (y < m)%nat → has_alpha im x y = true →
                b0 <= Z.of_nat x < b2 ∧ b1 <= Z.of_nat y < b3;
  box_left : seen im m (λ x _, b0 = Z.of_nat x);
  box_upper : seen im m (λ _ y, b1 = Z.of_nat y);
  box_right : seen im m (λ x _, b2 = Z.of_nat x + 1);
  box_lower : seen im m (λ _ y, b3 = Z.of_nat y + 1)
}.

Definition scan_inv (im : image) (m : nat) (bb : box) : Prop :=
  let '(b0, b1, b2, b3) := bb in
  (b1 < 0 ∧ (b0 = Z.of_nat (xsize im) ∧ b2 = 0 ∧ b3 = 0) ∧ rows_clear im m)
  ∨ (0 <= b1 ∧ box_inv im m b0 b1 b2 b3).

End BBox.

(* ===================================================================== *)
(** * Properties                                                          *)
(* ===================================================================== *)

Example splitext_ext_ex :
  map OsPath.splitext_ext ["d/a.png"; "d/.png"; "d/a.b.JPG"; "d.x/a"; "d/..jpeg"; "d/a."]
  = [".png"; ""; ".JPG"; ""; ""; "."].
Proof. reflexivity. Qed.

Example endswith_ex :
  map (fun s => Str.endswith_any (Str.lower s) [".png"; ".jpg"; ".jpeg"])
      ["a.PNG"; ".png"; "png"; "a.png.txt"; "b.JpEg"; ""]
  = [true; true; false; false; true; false].
Proof. reflexivity. Qed.

(* ===================================================================== *)
(** ** binary64: what the roundings give                                   *)
(* ===================================================================== *)

Module Float64Facts.
Import Float64.

(** [digits2_pos] counts the binary digits. *)
Lemma digits2_pos_bounds p :
  2 ^ (Zpos (digits2_pos p) - 1) <= Zpos p < 2 ^ Zpos (digits2_pos p).
Proof.
  induction p as [p IH|p IH|]; cbn [digits2_pos].
  - rewrite Pos2Z.inj_succ. change (Z.pos p~1) with (2 * Z.pos p + 1).
    replace (Z.succ (Zpos (digits2_pos p)) - 1) with (Z.succ (Zpos (digits2_pos p) - 1)) by lia.
    rewrite !Z.pow_succ_r by lia.
    destruct IH as [IH1 IH2]. revert IH1 IH2.
    generalize (2 ^ (Z.pos (digits2_pos p) - 1)), (2 ^ Z.pos (digits2_pos p)). lia.
  - rewrite Pos2Z.inj_succ. change (Z.pos p~0) with (2 * Z.pos p).
    replace (Z.succ (Zpos (digits2_pos p)) - 1) with (Z.succ (Zpos (digits2_pos p) - 1)) by lia.
    rewrite !Z.pow_succ_r by lia.
    destruct IH as [IH1 IH2]. revert IH1 IH2.
    generalize (2 ^ (Z.pos (digits2_pos p) - 1)), (2 ^ Z.pos (digits2_pos p)). lia.
  - cbn. lia.
Qed.

Lemma digits2_pos_unique p d :
  2 ^ (d - 1) <= Zpos p < 2 ^ d → Zpos (digits2_pos p) = d.
Proof.
  intros [Hlo Hhi]. pose proof (digits2_pos_bounds p) as [Blo Bhi].
  assert (0 < d).
  { destruct (Z.le_gt_cases d 0) as [Hd|Hd]; [|assumption].
    assert (2 ^ d <= 2 ^ 0) by (apply Z.pow_le_mono_r; lia). cbn in *. lia. }
  destruct (Z.lt_trichotomy (Zpos (digits2_pos p)) d) as [Hlt|[Heq|Hgt]]; [|assumption|].
  - assert (2 ^ Zpos (digits2_pos p) <= 2 ^ (d - 1)) by (apply Z.pow_le_mono_r; lia). lia.
  - assert (2 ^ d <= 2 ^ (Zpos (digits2_pos p) - 1)) by (apply Z.pow_le_mono_r; lia). lia.
Qed.

(** Comparisons as order facts, for [lia]. *)
Ltac cmp :=
  repeat match goal with
  | H : Z.compare ?a ?b = Datatypes.Lt |- _ => change (a < b) in H
  | H : Z.compare ?a ?b = Datatypes.Gt |- _ => change (a > b) in H
  | H : Z.compare ?a ?b = Datatypes.Eq |- _ => apply Z.compare_eq_iff in H
  | |- Z.compare ?a ?b = Datatypes.Lt => change (a < b)
  | |- Z.compare ?a ?b = Datatypes.Gt => change (a > b)
  | |- Z.compare ?a ?b = Datatypes.Eq => apply Z.compare_eq_iff
  end.

(** One shift to the right keeps the exact value located, at twice the
    unit. *)
Lemma shr_1_ok num den mrs :
  0 < den → rec_ok num den mrs → rec_ok num (2 * den) (shr_1 mrs).
Proof.
  intros Hden [Hm Hloc]. destruct mrs as [m r s]. cbn [shr_m] in Hm.
  unfold rec_ok.
  destruct m as [|p|p]; [| |lia].
  - destruct r, s; cbn [shr_1 orb shr_m loc_of_shr_record located] in *;
      (split; [lia|]); match type of Hloc with _ ∧ _ => destruct Hloc as [[Hb1 Hb2] Hc] | _ => idtac end; cmp;
      repeat split; cmp; lia.
  - destruct p as [p|p|]; destruct r, s;
      cbn [shr_1 orb shr_m loc_of_shr_record located] in *;
      (split; [lia|]); match type of Hloc with _ ∧ _ => destruct Hloc as [[Hb1 Hb2] Hc] | _ => idtac end;
      try change (Z.pos p~1) with (2 * Z.pos p + 1) in *;
      try change (Z.pos p~0) with (2 * Z.pos p) in *;
      cmp; repeat split; cmp; lia.
Qed.

Lemma iter_shr_ok p : ∀ num den mrs,
  0 < den → rec_ok num den mrs → rec_ok num (2 ^ Zpos p * den) (SpecFloat.iter_pos shr_1 p mrs).
Proof.
  induction p as [p IH|p IH|]; intros num den mrs Hden Hok; cbn [SpecFloat.iter_pos].
  - replace (2 ^ Z.pos p~1 * den) with (2 ^ Z.pos p * (2 ^ Z.pos p * (2 * den))).
    + apply IH; [|apply IH; [lia|apply shr_1_ok; assumption]].
      apply Z.mul_pos_pos; [apply Z.pow_pos_nonneg|]; lia.
    + change (Z.pos p~1) with (2 * Z.pos p + 1).
      replace (2 * Z.pos p + 1) with (Z.pos p + Z.pos p + 1) by lia.
      rewrite !Z.pow_add_r by lia. ring.
  - replace (2 ^ Z.pos p~0 * den) with (2 ^ Z.pos p * (2 ^ Z.pos p * den)).
    + apply IH; [|apply IH; assumption].
      apply Z.mul_pos_pos; [apply Z.pow_pos_nonneg|]; lia.
    + change (Z.pos p~0) with (2 * Z.pos p).
      replace (2 * Z.pos p) with (Z.pos p + Z.pos p) by lia.
      rewrite !Z.pow_add_r by lia. ring.
  - change (2 ^ 1) with 2. apply shr_1_ok; assumption.
Qed.

Lemma loc_of_shr_record_of_loc m l :
  loc_of_shr_record (shr_record_of_loc m l) = l ∧ shr_m (shr_record_of_loc m l) = m.
Proof. destruct l as [|[]]; split; reflexivity. Qed.

Lemma shr_ok num den mrs e n :
  0 < den → 0 <= n → rec_ok num den mrs →
  snd (shr mrs e n) = e + n ∧ rec_ok num (2 ^ n * den) (fst (shr mrs e n)).
Proof.
  intros Hden Hn Hok. destruct n as [|p|p]; [| |lia]; cbn [shr fst snd].
  - split; [lia|]. change (2 ^ 0) with 1. rewrite Z.mul_1_l. assumption.
  - split; [reflexivity|]. apply iter_shr_ok; assumption.
Qed.

Lemma located_bounds num den m l :
  located num den m l → m * den <= num < (m + 1) * den ∨ (l = loc_Exact ∧ num = m * den).
Proof.
  destruct l as [|c]; cbn [located].
  - intros ->. right. split; reflexivity.
  - intros [[H1 H2] _]. left. lia.
Qed.

(** Rounding to nearest even moves the mantissa by at most one and ends
    within half a unit of the exact value. *)
Lemma round_ok num den mrs :
  0 < den → rec_ok num den mrs →
  let m' := round_nearest_even (shr_m mrs) (loc_of_shr_record mrs) in
  shr_m mrs <= m' <= shr_m mrs + 1
  ∧ - den <= 2 * (m' * den - num) <= den.
Proof.
  intros Hden [Hm Hloc]. destruct mrs as [m r s]. cbn [shr_m] in *.
  destruct r, s; cbn [loc_of_shr_record round_nearest_even located] in *;
    match type of Hloc with _ ∧ _ => destruct Hloc as [[Hb1 Hb2] Hc] | _ => idtac end;
    cmp; try (destruct (Z.even m)); cbv zeta; split; lia.
Qed.

(** Above the subnormal range the exponent leaves 53 digits. *)
Lemma fexp_normal e : -1074 <= e - 53 → fexp prec emax e = e - 53.
Proof. unfold fexp, emin, prec, emax. lia. Qed.

Lemma shr_fexp_normal p e l :
  -1074 <= Zpos (digits2_pos p) + e - 53 →
  shr_fexp prec emax (Zpos p) e l
  = shr (shr_record_of_loc (Zpos p) l) e (Zpos (digits2_pos p) - 53).
Proof.
  intros H. unfold shr_fexp. cbn [Zdigits2]. rewrite fexp_normal by lia.
  f_equal. lia.
Qed.

Lemma pow2_pos n : 0 <= n → 0 < 2 ^ n.
Proof. intros. apply Z.pow_pos_nonneg; lia. Qed.

(** Rounding a located mantissa of at least 53 digits, in the normal range. *)
Lemma binary_round_aux_normal px ex lx num den :
  let d := Zpos (digits2_pos px) in
  0 < den → located num den (Zpos px) lx →
  53 <= d → -1074 <= ex + d - 53 → ex + d - 52 <= 971 →
  ∃ m k,
    binary_round_aux prec emax false (Zpos px) ex lx = S754_finite false m (ex + k)
    ∧ (k = d - 53 ∨ k = d - 52)
    ∧ 2 ^ 52 <= Zpos m < 2 ^ 53
    ∧ - (2 ^ k * den) <= 2 * (Zpos m * (2 ^ k * den) - num) <= 2 ^ k * den.
Proof.
  intros d Hden Hloc Hd Hlo Hhi.
  unfold binary_round_aux.
  rewrite shr_fexp_normal by (fold d; lia). fold d.
  assert (Hok0 : rec_ok num den (shr_record_of_loc (Zpos px) lx)).
  { destruct (loc_of_shr_record_of_loc (Zpos px) lx) as [E1 E2].
    split; [rewrite E2; lia | rewrite E1, E2; assumption]. }
  destruct (shr_ok num den _ ex (d - 53) Hden ltac:(lia) Hok0) as [He1 Hok1].
  destruct (shr (shr_record_of_loc (Zpos px) lx) ex (d - 53)) as [mrs1 e1].
  cbn [fst snd] in He1, Hok1. subst e1.
  set (n := d - 53) in *. set (D := 2 ^ n * den) in *.
  assert (HD : 0 < D) by (apply Z.mul_pos_pos; [apply pow2_pos; lia | assumption]).
  pose proof (pow2_pos n ltac:(lia)) as Hpn.
  (* the shifted mantissa has exactly 53 digits *)
  assert (Hm1 : 2 ^ 52 <= shr_m mrs1 < 2 ^ 53).
  { destruct Hok1 as [Hnn Hl1].
    pose proof (digits2_pos_bounds px) as [Blo Bhi]. fold d in Blo, Bhi.
    replace (d - 1) with (52 + n) in Blo by lia.
    replace d with (53 + n) in Bhi by lia.
    rewrite Z.pow_add_r in Blo, Bhi by lia.
    assert (Hx : Zpos px * den <= num < (Zpos px + 1) * den).
    { destruct (located_bounds _ _ _ _ Hloc) as [?|[_ ->]]; [assumption|lia]. }
    assert (Hy : shr_m mrs1 * D <= num < (shr_m mrs1 + 1) * D).
    { destruct (located_bounds _ _ _ _ Hl1) as [?|[_ ->]]; [assumption|lia]. }
    unfold D in Hy.
    assert (shr_m mrs1 * 2 ^ n < Zpos px + 1) by nia.
    assert (Zpos px < (shr_m mrs1 + 1) * 2 ^ n) by nia.
    split; nia. }
  destruct (round_ok num D mrs1 HD Hok1) as [Hr1 Hr2].
  set (m2 := round_nearest_even (shr_m mrs1) (loc_of_shr_record mrs1)) in *.
  destruct (Z.eq_dec m2 (2 ^ 53)) as [E|NE].
  - (* the rounding carried into a 54th digit *)
    rewrite E. exists (Z.to_pos (2 ^ 52)), (n + 1).
    change (Z.pos (Z.to_pos (2 ^ 52))) with (2 ^ 52).
    unfold shr_fexp. change (Zdigits2 (2 ^ 53)) with 54.
    rewrite fexp_normal by lia.
    replace (54 + (ex + n) - 53 - (ex + n)) with 1 by lia.
    cbn [shr_record_of_loc shr SpecFloat.iter_pos].
    change (shr_1 {| shr_m := 2 ^ 53; shr_r := false; shr_s := false |})
      with {| shr_m := 2 ^ 52; shr_r := false; shr_s := false |}.
    cbn [shr_m]. change (2 ^ 52) with (Zpos (Z.to_pos (2 ^ 52))) at 1.
    cbv iota beta.
    destruct (Z.leb_spec (ex + n + 1) (emax - prec)) as [_|Hbad];
      [|unfold emax, prec in Hbad; lia].
    split; [f_equal; lia|]. split; [right; lia|]. split; [lia|].
    rewrite Z.pow_add_r by lia. change (2 ^ 1) with 2.
    fold D. rewrite E in Hr2.
    change (2 ^ 53) with (2 ^ 52 * 2) in Hr2. nia.
  - assert (Hm2 : 2 ^ 52 <= m2 < 2 ^ 53) by lia.
    destruct m2 as [|q|q] eqn:Eq2; [lia| |lia].
    exists q, n.
    assert (Hdq : Zpos (digits2_pos q) = 53).
    { apply digits2_pos_unique. change (53 - 1) with 52. assumption. }
    unfold shr_fexp. cbn [Zdigits2]. rewrite Hdq.
    rewrite fexp_normal by lia.
    replace (53 + (ex + n) - 53 - (ex + n)) with 0 by lia.
    cbn [shr_record_of_loc shr shr_m].
    destruct (Z.leb_spec (ex + n) (emax - prec)) as [_|Hbad];
      [|unfold emax, prec in Hbad; lia].
    split; [reflexivity|]. split; [left; reflexivity|]. split; [assumption|].
    fold D. lia.
Qed.

(** A mantissa of exactly 53 digits is kept as it is. *)
Lemma binary_round_aux_exact p e :
  Zpos (digits2_pos p) = 53 → -1074 <= e → e <= 971 →
  binary_round_aux prec emax false (Zpos p) e loc_Exact = S754_finite false p e.
Proof.
  intros Hd Hlo Hhi. unfold binary_round_aux.
  rewrite shr_fexp_normal by lia. rewrite Hd. change (53 - 53) with 0.
  cbn [shr shr_record_of_loc shr_m loc_of_shr_record round_nearest_even].
  rewrite shr_fexp_normal by lia. rewrite Hd. change (53 - 53) with 0.
  cbn [shr shr_record_of_loc shr_m].
  destruct (Z.leb_spec e (emax - prec)) as [_|Hbad];
    [reflexivity | unfold emax, prec in Hbad; lia].
Qed.

Lemma iter_xO p k : Zpos (Pos.iter xO p k) = Zpos p * 2 ^ Zpos k.
Proof.
  induction k as [|k IH] using Pos.peano_ind.
  - cbn [Pos.iter]. change (2 ^ 1) with 2. lia.
  - rewrite Pos.iter_succ, Pos2Z.inj_succ, Z.pow_succ_r by lia.
    change (Z.pos (Pos.iter xO p k)~0) with (2 * Z.pos (Pos.iter xO p k)).
    rewrite IH. ring.
Qed.

(** An int below 2^53 converts exactly, to a 53-bit mantissa. *)
Lemma of_int_exact n :
  0 < n < 2 ^ 53 →
  ∃ m j, of_int n = Some (S754_finite false m (- j))
         ∧ 0 <= j <= 52 ∧ Zpos m = n * 2 ^ j ∧ 2 ^ 52 <= Zpos m < 2 ^ 53.
Proof.
  intros [Hpos Hlt]. destruct n as [|p|p]; [lia| |lia].
  pose proof (digits2_pos_bounds p) as [Blo Bhi].
  set (d := Zpos (digits2_pos p)) in *.
  assert (Hd : 1 <= d <= 53).
  { split; [unfold d; lia|].
    destruct (Z.le_gt_cases d 53) as [?|Hgt]; [assumption|].
    assert (2 ^ 53 <= 2 ^ (d - 1)) by (apply Z.pow_le_mono_r; lia). lia. }
  unfold of_int, binary_normalize, binary_round, shl_align.
  fold d. rewrite fexp_normal by lia.
  destruct (d + 0 - 53 - 0) as [|q|q] eqn:Eq; [| lia |].
  - (* already 53 digits *)
    assert (d = 53) by lia.
    rewrite binary_round_aux_exact by (fold d; lia).
    exists p, 0. change (- 0) with 0. split; [reflexivity|].
    split; [lia|]. split; [change (2 ^ 0) with 1; lia|].
    replace (d - 1) with 52 in Blo by lia. lia.
  - (* shifted left to 53 digits *)
    assert (Hq : Zpos q = 53 - d) by lia.
    assert (Hval : Zpos (Pos.iter xO p q) = Zpos p * 2 ^ (53 - d)).
    { rewrite iter_xO, Hq. reflexivity. }
    assert (Hrange : 2 ^ 52 <= Zpos (Pos.iter xO p q) < 2 ^ 53).
    { rewrite Hval.
      assert (E52 : 2 ^ 52 = 2 ^ (d - 1) * 2 ^ (53 - d))
        by (rewrite <- Z.pow_add_r by lia; f_equal; lia).
      assert (E53 : 2 ^ 53 = 2 ^ d * 2 ^ (53 - d))
        by (rewrite <- Z.pow_add_r by lia; f_equal; lia).
      rewrite E52, E53.
      pose proof (pow2_pos (53 - d) ltac:(lia)). nia. }
    rewrite binary_round_aux_exact.
    + exists (Pos.iter xO p q), (53 - d).
      split; [do 2 f_equal; lia|]. split; [lia|]. split; assumption.
    + apply digits2_pos_unique. change (53 - 1) with 52. assumption.
    + lia.
    + lia.
Qed.

Lemma digits2_pos_range p a b :
  0 <= a → 2 ^ a <= Zpos p < 2 ^ b → a < Zpos (digits2_pos p) <= b.
Proof.
  intros Ha [Hlo Hhi]. pose proof (digits2_pos_bounds p) as [Blo Bhi].
  set (d := Zpos (digits2_pos p)) in *. split.
  - destruct (Z.lt_ge_cases a d) as [?|Hge]; [assumption|].
    assert (2 ^ d <= 2 ^ a) by (apply Z.pow_le_mono_r; lia). lia.
  - destruct (Z.le_gt_cases d b) as [?|Hgt]; [assumption|].
    assert (2 ^ b <= 2 ^ (d - 1)) by (apply Z.pow_le_mono_r; unfold d in *; lia). lia.
Qed.

(** The remainder of the division locates the exact quotient. *)
Lemma new_location_located num den q r :
  0 < den → num = den * q + r → 0 <= r < den →
  located num den q (new_location den r).
Proof.
  intros Hden Hnum Hr. unfold new_location.
  destruct (Z.even den) eqn:Hev;
    [unfold new_location_even | unfold new_location_odd];
    (destruct (Z.eqb_spec r 0) as [E|Hr0]; cbn [located]; [subst r; lia|]).
  - split; [nia|].
    destruct (Z.compare_spec (2 * r) den); cmp; nia.
  - assert (Hodd : den mod 2 = 1).
    { rewrite Zeven_mod in Hev. apply Z.eqb_neq in Hev.
      pose proof (Z.mod_pos_bound den 2 ltac:(lia)). lia. }
    pose proof (Z.div_mod den 2 ltac:(lia)) as Hdm.
    split; [nia|].
    destruct (Z.compare_spec (2 * r + 1) den); cmp; nia.
Qed.

(** The quotient of two 53-digit floats is within half a unit in the last
    place of the exact quotient. *)
Lemma SFdiv_normal (m1 m2 : positive) e1 e2 :
  2 ^ 52 <= Zpos m1 < 2 ^ 53 → 2 ^ 52 <= Zpos m2 < 2 ^ 53 →
  -900 <= e1 - e2 <= 900 →
  ∃ m k,
    SFdiv prec emax (S754_finite false m1 e1) (S754_finite false m2 e2)
      = S754_finite false m (e1 - e2 - 53 + k)
    ∧ 0 <= k <= 2
    ∧ 2 ^ 52 <= Zpos m < 2 ^ 53
    ∧ - (2 ^ k * Zpos m2) <= 2 * (Zpos m * (2 ^ k * Zpos m2) - Zpos m1 * 2 ^ 53)
      <= 2 ^ k * Zpos m2.
Proof.
  intros H1 H2 He.
  assert (D1 : Zpos (digits2_pos m1) = 53)
    by (apply digits2_pos_unique; change (53 - 1) with 52; assumption).
  assert (D2 : Zpos (digits2_pos m2) = 53)
    by (apply digits2_pos_unique; change (53 - 1) with 52; assumption).
  unfold SFdiv, SFdiv_core_binary. cbn [Zdigits2 xorb]. rewrite D1, D2.
  rewrite fexp_normal by lia.
  replace (Z.min (53 + e1 - (53 + e2) - 53) (e1 - e2)) with (e1 - e2 - 53) by lia.
  replace (e1 - e2 - (e1 - e2 - 53)) with 53 by lia.
  rewrite Z.shiftl_mul_pow2 by lia.
  pose proof (Z_div_mod (Zpos m1 * 2 ^ 53) (Zpos m2) ltac:(lia)) as Hdm.
  destruct (Z.div_eucl (Zpos m1 * 2 ^ 53) (Zpos m2)) as [q r].
  destruct Hdm as [Hnum Hr].
  assert (Hq : 2 ^ 52 <= q < 2 ^ 54).
  { change (2 ^ 54) with (2 * 2 ^ 53). change (2 ^ 53) with (2 * 2 ^ 52) in *. nia. }
  destruct q as [|pq|pq]; [lia| |lia].
  pose proof (digits2_pos_range pq 52 54 ltac:(lia) Hq) as Hdq.
  destruct (binary_round_aux_normal pq (e1 - e2 - 53)
              (new_location (Zpos m2) r) (Zpos m1 * 2 ^ 53) (Zpos m2))
    as (m & k & Hres & Hk & Hm & Herr).
  - lia.
  - apply new_location_located; [lia | assumption | assumption].
  - lia.
  - lia.
  - lia.
  - exists m, k. split; [exact Hres|]. split; [lia|]. split; assumption.
Qed.

(** So is their product. *)
Lemma SFmul_normal (m1 m2 : positive) e1 e2 :
  2 ^ 52 <= Zpos m1 < 2 ^ 53 → 2 ^ 52 <= Zpos m2 < 2 ^ 53 →
  -900 <= e1 + e2 <= 800 →
  ∃ m k,
    SFmul prec emax (S754_finite false m1 e1) (S754_finite false m2 e2)
      = S754_finite false m (e1 + e2 + k)
    ∧ 52 <= k <= 54
    ∧ 2 ^ 52 <= Zpos m < 2 ^ 53
    ∧ - 2 ^ k <= 2 * (Zpos m * 2 ^ k - Zpos m1 * Zpos m2) <= 2 ^ k.
Proof.
  intros H1 H2 He. unfold SFmul. cbn [xorb].
  assert (Hp : 2 ^ 104 <= Zpos (m1 * m2) < 2 ^ 106).
  { rewrite Pos2Z.inj_mul.
    change (2 ^ 104) with (2 ^ 52 * 2 ^ 52). change (2 ^ 106) with (2 ^ 53 * 2 ^ 53).
    nia. }
  pose proof (digits2_pos_range (m1 * m2) 104 106 ltac:(lia) Hp) as Hd.
  destruct (binary_round_aux_normal (m1 * m2) (e1 + e2) loc_Exact
              (Zpos m1 * Zpos m2) 1)
    as (m & k & Hres & Hk & Hm & Herr).
  - lia.
  - cbn [located]. rewrite Pos2Z.inj_mul. ring.
  - lia.
  - lia.
  - lia.
  - exists m, k. split; [exact Hres|]. split; [lia|]. split; [assumption|].
    rewrite Z.mul_1_r in Herr. exact Herr.
Qed.

(** The arithmetic behind the two roundings.  [mq / E] is the rounded
    quotient a/h and [mp * S / E] the rounded product with w, both with 53
    significant bits; [t] is the integer part of the latter. *)
Lemma two_roundings a w h mq E mp S t :
  0 < a → 0 < w → 0 < h → a * w + h < 2 ^ 50 →
  2 ^ 52 <= mq < 2 ^ 53 → 0 < E → - h <= 2 * (mq * h - a * E) <= h →
  2 ^ 52 <= mp < 2 ^ 53 → 0 < S → - S <= 2 * (mp * S - w * mq) <= S →
  t * E <= mp * S < (t + 1) * E →
  a * w / h - 1 <= t <= a * w / h ∧ ((a * w) mod h ≠ 0 → t = a * w / h).
Proof.
  intros Ha Hw Hh Hsmall Hmq HE Hq Hmp HS Hp Ht.
  change (2 ^ 52) with 4503599627370496 in *.
  change (2 ^ 53) with 9007199254740992 in *.
  change (2 ^ 50) with 1125899906842624 in *.
  set (X := a * w) in *.
  pose proof (Z.div_mod X h ltac:(lia)) as Hdm.
  pose proof (Z.mod_pos_bound X h ltac:(lia)) as Hrho.
  set (F := X / h) in *. set (rho := X mod h) in *.
  assert (HA : 4503599627370496 * h <= mq * h)
    by (apply Z.mul_le_mono_nonneg_r; lia).
  assert (HP : 4503599627370496 * S <= mp * S)
    by (apply Z.mul_le_mono_nonneg_r; lia).
  assert (HQA : (w * mq) * h = w * (mq * h)) by ring.
  assert (HXE : w * (a * E) = X * E) by (unfold X; ring).
  assert (HPh : 0 <= mp * S * h) by (apply Z.mul_nonneg_nonneg; lia).
  revert HA HP Hq Hp HQA HXE Ht HPh.
  generalize (mq * h) (a * E) (mp * S) (w * mq).
  intros A B P Q HA HP Hq Hp HQA HXE Ht HPh.
  assert (A1 : 9007199254740991 * A <= 9007199254740992 * B) by lia.
  assert (A2 : 9007199254740992 * B <= 9007199254740993 * A) by lia.
  assert (P1 : 9007199254740991 * P <= 9007199254740992 * Q) by lia.
  assert (P2 : 9007199254740992 * Q <= 9007199254740993 * P) by lia.
  assert (K1 : 9007199254740991 * 9007199254740991 * (P * h)
               <= 9007199254740992 * 9007199254740992 * (X * E)).
  { assert (S1 : (9007199254740991 * P) * h <= (9007199254740992 * Q) * h)
      by (apply Z.mul_le_mono_nonneg_r; lia).
    assert (S2 : w * (9007199254740991 * A) <= w * (9007199254740992 * B))
      by (apply Z.mul_le_mono_nonneg_l; lia).
    rewrite <- HXE.
    replace (9007199254740991 * P * h) with (9007199254740991 * (P * h)) in S1 by ring.
    replace (9007199254740992 * Q * h) with (9007199254740992 * (w * A)) in S1
      by (rewrite <- HQA; ring).
    replace (w * (9007199254740991 * A)) with (9007199254740991 * (w * A)) in S2 by ring.
    replace (w * (9007199254740992 * B)) with (9007199254740992 * (w * B)) in S2 by ring.
    revert S1 S2. generalize (P * h) (w * A) (w * B). intros. lia. }
  assert (K2 : 9007199254740992 * 9007199254740992 * (X * E)
               <= 9007199254740993 * 9007199254740993 * (P * h)).
  { assert (S1 : (9007199254740992 * Q) * h <= (9007199254740993 * P) * h)
      by (apply Z.mul_le_mono_nonneg_r; lia).
    assert (S2 : w * (9007199254740992 * B) <= w * (9007199254740993 * A))
      by (apply Z.mul_le_mono_nonneg_l; lia).
    rewrite <- HXE.
    replace (9007199254740993 * P * h) with (9007199254740993 * (P * h)) in S1 by ring.
    replace (9007199254740992 * Q * h) with (9007199254740992 * (w * A)) in S1
      by (rewrite <- HQA; ring).
    replace (w * (9007199254740993 * A)) with (9007199254740993 * (w * A)) in S2 by ring.
    replace (w * (9007199254740992 * B)) with (9007199254740992 * (w * B)) in S2 by ring.
    revert S1 S2. generalize (P * h) (w * A) (w * B). intros. lia. }
  clear A1 A2 P1 P2 HA HP Hq Hp HQA HXE A B Q.
  destruct Ht as [Ht1 Ht2].
  assert (Hupper : t <= F).
  { destruct (Z.le_gt_cases t F) as [?|Hgt]; [assumption|exfalso].
    assert (HPE : (F + 1) * E <= P).
    { apply Z.le_trans with (t * E); [|assumption].
      apply Z.mul_le_mono_nonneg_r; lia. }
    assert (HG1 : X + 1 <= (F + 1) * h) by lia.
    assert (HG2 : (F + 1) * h <= X + h) by lia.
    assert (C1 : ((F + 1) * E) * h <= P * h) by (apply Z.mul_le_mono_nonneg_r; lia).
    replace ((F + 1) * E * h) with (((F + 1) * h) * E) in C1 by ring.
    revert HG1 HG2 C1. generalize ((F + 1) * h). intros G HG1 HG2 C1.
    assert (C2 : 9007199254740991 * 9007199254740991 * (G * E)
                 <= 9007199254740992 * 9007199254740992 * (X * E)) by lia.
    replace (9007199254740991 * 9007199254740991 * (G * E))
      with ((9007199254740991 * 9007199254740991 * G) * E) in C2 by ring.
    replace (9007199254740992 * 9007199254740992 * (X * E))
      with ((9007199254740992 * 9007199254740992 * X) * E) in C2 by ring.
    apply Z.mul_le_mono_pos_r in C2; [|assumption]. lia. }
  (* if P < G' * E with G' * h <= X - 1 we have a contradiction *)
  assert (Hlow : ∀ G', P < G' * E → G' * h <= X - 1 → False).
  { intros G' HPE HG.
    assert (C1 : P * h < (G' * E) * h) by (apply Z.mul_lt_mono_pos_r; lia).
    replace (G' * E * h) with ((G' * h) * E) in C1 by ring.
    revert HG C1. generalize (G' * h). intros G HG C1.
    assert (C2 : 9007199254740992 * 9007199254740992 * (X * E)
                 < 9007199254740993 * 9007199254740993 * (G * E)) by lia.
    replace (9007199254740993 * 9007199254740993 * (G * E))
      with ((9007199254740993 * 9007199254740993 * G) * E) in C2 by ring.
    replace (9007199254740992 * 9007199254740992 * (X * E))
      with ((9007199254740992 * 9007199254740992 * X) * E) in C2 by ring.
    apply Z.mul_lt_mono_pos_r in C2; [|assumption]. lia. }
  assert (Hlower : F - 1 <= t).
  { destruct (Z.le_gt_cases (F - 1) t) as [?|Hlt]; [assumption|exfalso].
    apply (Hlow (F - 1)).
    - apply Z.lt_le_trans with ((t + 1) * E); [assumption|].
      apply Z.mul_le_mono_nonneg_r; lia.
    - lia. }
  split; [lia|]. intros Hne.
  destruct (Z.le_gt_cases F t) as [?|Hlt]; [lia|exfalso].
  apply (Hlow F).
  - apply Z.lt_le_trans with ((t + 1) * E); [assumption|].
    apply Z.mul_le_mono_nonneg_r; lia.
  - fold rho in Hne. lia.
Qed.

(** The integer part of a positive finite float. *)
Lemma trunc_finite m e :
  ∃ t, trunc (S754_finite false m e) = Some t
       ∧ ∀ E S, 0 < E → 0 < S → (e < 0 → E = 2 ^ (- e) * S) → (0 <= e → S = 2 ^ e * E) →
           t * E <= Zpos m * S < (t + 1) * E.
Proof.
  unfold trunc. destruct e as [|p|p].
  - exists (Zpos m). split; [rewrite Z.shiftl_mul_pow2 by lia; f_equal; cbn; lia|].
    intros E S HE HS _ HS2. rewrite (HS2 ltac:(lia)). change (2 ^ 0) with 1. lia.
  - exists (Zpos m * 2 ^ Zpos p). split; [rewrite Z.shiftl_mul_pow2 by lia; reflexivity|].
    intros E S HE HS _ HS2. rewrite (HS2 ltac:(lia)).
    pose proof (pow2_pos (Zpos p) ltac:(lia)). nia.
  - exists (Zpos m / 2 ^ Zpos p). split; [rewrite Z.shiftr_div_pow2 by lia; reflexivity|].
    intros E S HE HS HE2 _. rewrite (HE2 ltac:(lia)).
    change (- Z.neg p) with (Zpos p).
    pose proof (pow2_pos (Zpos p) ltac:(lia)) as HN.
    pose proof (Z.div_mod (Zpos m) (2 ^ Zpos p) ltac:(lia)) as Hdm.
    pose proof (Z.mod_pos_bound (Zpos m) (2 ^ Zpos p) HN) as Hr.
    revert Hdm Hr HN.
    generalize (Zpos m / 2 ^ Zpos p). generalize (Zpos m mod 2 ^ Zpos p).
    generalize (2 ^ Zpos p).
    intros N r t Hdm Hr HN. split.
    + replace (t * (N * S)) with ((N * t) * S) by ring.
      apply Z.mul_le_mono_nonneg_r; lia.
    + replace ((t + 1) * (N * S)) with ((N * t + N) * S) by ring.
      apply Z.mul_lt_mono_pos_r; lia.
Qed.

(** [int(w * (a / h))] in binary64 is the exact floor of [a * w / h], or
    one below it when [h] divides [a * w]. *)
Theorem scaled_near_floor a w h :
  0 < a < 2 ^ 50 → 0 <= w → 0 < h → a * w + h < 2 ^ 50 →
  ∃ t, scaled a w h = Some t
       ∧ a * w / h - 1 <= t <= a * w / h
       ∧ ((a * w) mod h ≠ 0 → t = a * w / h).
Proof.
  intros Ha Hw Hh Hsmall.
  assert (H50 : 2 ^ 50 < 2 ^ 53) by (apply Z.pow_lt_mono_r; lia).
  destruct (of_int_exact a ltac:(lia)) as (m1 & j1 & Ea & Hj1 & Hm1 & Rm1).
  assert (Hhlt : h < 2 ^ 50) by nia.
  destruct (of_int_exact h ltac:(lia)) as (m2 & j2 & Eh & Hj2 & Hm2 & Rm2).
  destruct (SFdiv_normal m1 m2 (- j1) (- j2) Rm1 Rm2 ltac:(lia))
    as (mq & k & Ediv & Hk & Rmq & Herrq).
  unfold scaled. rewrite Ea, Eh. unfold div. rewrite Ediv.
  destruct (Z.eq_dec w 0) as [->|Hw0].
  { exists 0. split; [reflexivity|].
    rewrite Z.mul_0_r, Z.div_0_l, Z.mod_0_l by lia. split; [lia|tauto]. }
  assert (Hwlt : w < 2 ^ 50) by nia.
  destruct (of_int_exact w ltac:(lia)) as (m3 & j3 & Ew & Hj3 & Hm3 & Rm3).
  rewrite Ew. unfold mul.
  set (eq := - j1 - - j2 - 53 + k) in *.
  (* the exponent of the quotient is negative *)
  assert (Hj1' : 3 <= j1).
  { destruct (Z.le_gt_cases 3 j1) as [?|Hlt]; [assumption|exfalso].
    assert (2 ^ j1 <= 2 ^ 2) by (apply Z.pow_le_mono_r; lia).
    change (2 ^ 2) with 4 in *. change (2 ^ 52) with (4 * 2 ^ 50) in Rm1. nia. }
  destruct (SFmul_normal m3 mq (- j3) eq Rm3 Rmq ltac:(unfold eq; lia))
    as (mp & k' & Emul & Hk' & Rmp & Herrp).
  rewrite Emul.
  destruct (trunc_finite mp (- j3 + eq + k')) as (t & Et & Ht).
  exists t. split; [exact Et|].
  set (E := 2 ^ (- eq)). set (S := 2 ^ (k' - j3)).
  assert (HE : 0 < E) by (apply pow2_pos; unfold eq; lia).
  assert (HS : 0 < S) by (apply pow2_pos; lia).
  apply (two_roundings a w h (Zpos mq) E (Zpos mp) S t);
    try assumption; try lia.
  - (* the quotient *)
    set (T := 2 ^ k * 2 ^ j2).
    assert (HT : 0 < T) by (apply Z.mul_pos_pos; apply pow2_pos; lia).
    assert (E1 : 2 ^ k * Zpos m2 = T * h) by (rewrite Hm2; unfold T; ring).
    assert (E2 : Zpos m1 * 2 ^ 53 = a * (E * T)).
    { rewrite Hm1. unfold E, T. rewrite <- !Z.pow_add_r by (unfold eq; lia).
      rewrite <- Z.mul_assoc, <- Z.pow_add_r by lia.
      do 2 f_equal. unfold eq. lia. }
    rewrite E1, E2 in Herrq.
    split.
    + apply (Z.mul_le_mono_pos_l _ _ T); [assumption|]. nia.
    + apply (Z.mul_le_mono_pos_l _ _ T); [assumption|]. nia.
  - (* the product *)
    set (T := 2 ^ j3).
    assert (HT : 0 < T) by (apply pow2_pos; lia).
    assert (E1 : 2 ^ k' = S * T).
    { unfold S, T. rewrite <- Z.pow_add_r by lia. f_equal. lia. }
    assert (E2 : Zpos m3 = w * T) by (rewrite Hm3; reflexivity).
    rewrite E1, E2 in Herrp.
    split.
    + apply (Z.mul_le_mono_pos_l _ _ T); [assumption|]. nia.
    + apply (Z.mul_le_mono_pos_l _ _ T); [assumption|]. nia.
  - (* the truncation *)
    apply Ht; try assumption.
    + intros Hneg. unfold E, S. rewrite <- Z.pow_add_r by lia. f_equal. lia.
    + intros Hnn. unfold E, S. rewrite <- Z.pow_add_r by (unfold eq in *; lia).
      f_equal. lia.
Qed.

End Float64Facts.

(* ===================================================================== *)
(** ** binary64: when nothing is lost                                      *)
(* ===================================================================== *)

Module Float64Exact.
Import Float64 Float64Facts.

(** The two roundings of [int(w * (a / h))], as integer facts: [mq / E] is
    the rounded quotient, [mp * S / E] the rounded product, [t] the result,
    and of the two units [E] and [S] one is a multiple of the other. *)
Lemma scaled_roundings a w h :
  0 < a < 2 ^ 50 → 0 < w → 0 < h → a * w + h < 2 ^ 50 →
  ∃ mq E mp S t N,
    scaled a w h = Some t
    ∧ 2 ^ 52 <= mq < 2 ^ 53 ∧ 0 < E ∧ - h <= 2 * (mq * h - a * E) <= h
    ∧ 2 ^ 52 <= mp < 2 ^ 53 ∧ 0 < S ∧ - S <= 2 * (mp * S - w * mq) <= S
    ∧ t * E <= mp * S < (t + 1) * E
    ∧ 0 < N ∧ (E = N * S ∨ S = N * E).
Proof.
  intros Ha Hw Hh Hsmall.
  assert (H50 : 2 ^ 50 < 2 ^ 53) by (apply Z.pow_lt_mono_r; lia).
  destruct (of_int_exact a ltac:(lia)) as (m1 & j1 & Ea & Hj1 & Hm1 & Rm1).
  assert (Hhlt : h < 2 ^ 50) by nia.
  destruct (of_int_exact h ltac:(lia)) as (m2 & j2 & Eh & Hj2 & Hm2 & Rm2).
  destruct (SFdiv_normal m1 m2 (- j1) (- j2) Rm1 Rm2 ltac:(lia))
    as (mq & k & Ediv & Hk & Rmq & Herrq).
  assert (Hwlt : w < 2 ^ 50) by nia.
  destruct (of_int_exact w ltac:(lia)) as (m3 & j3 & Ew & Hj3 & Hm3 & Rm3).
  set (eq := - j1 - - j2 - 53 + k) in *.
  assert (Hj1' : 3 <= j1).
  { destruct (Z.le_gt_cases 3 j1) as [?|Hlt]; [assumption|exfalso].
    assert (2 ^ j1 <= 2 ^ 2) by (apply Z.pow_le_mono_r; lia).
    change (2 ^ 2) with 4 in *. change (2 ^ 52) with (4 * 2 ^ 50) in Rm1. nia. }
  destruct (SFmul_normal m3 mq (- j3) eq Rm3 Rmq ltac:(unfold eq; lia))
    as (mp & k' & Emul & Hk' & Rmp & Herrp).
  destruct (trunc_finite mp (- j3 + eq + k')) as (t & Et & Ht).
  set (E := 2 ^ (- eq)). set (S := 2 ^ (k' - j3)).
  assert (HE : 0 < E) by (apply pow2_pos; unfold eq; lia).
  assert (HS : 0 < S) by (apply pow2_pos; lia).
  set (ep := - j3 + eq + k') in *.
  exists (Zpos mq), E, (Zpos mp), S, t, (2 ^ Z.abs ep).
  split.
  { unfold scaled. rewrite Ea, Eh, Ew. unfold div, mul. rewrite Ediv, Emul. exact Et. }
  split; [assumption|]. split; [assumption|]. split.
  { set (T := 2 ^ k * 2 ^ j2).
    assert (HT : 0 < T) by (apply Z.mul_pos_pos; apply pow2_pos; lia).
    assert (E1 : 2 ^ k * Zpos m2 = T * h) by (rewrite Hm2; unfold T; ring).
    assert (E2 : Zpos m1 * 2 ^ 53 = a * (E * T)).
    { rewrite Hm1. unfold E, T. rewrite <- !Z.pow_add_r by (unfold eq; lia).
      rewrite <- Z.mul_assoc, <- Z.pow_add_r by lia.
      do 2 f_equal. unfold eq. lia. }
    rewrite E1, E2 in Herrq.
    split.
    + apply (Z.mul_le_mono_pos_l _ _ T); [assumption|]. nia.
    + apply (Z.mul_le_mono_pos_l _ _ T); [assumption|]. nia. }
  split; [assumption|]. split; [assumption|]. split.
  { set (T := 2 ^ j3).
    assert (HT : 0 < T) by (apply pow2_pos; lia).
    assert (E1 : 2 ^ k' = S * T).
    { unfold S, T. rewrite <- Z.pow_add_r by lia. f_equal. lia. }
    assert (E2 : Zpos m3 = w * T) by (rewrite Hm3; reflexivity).
    rewrite E1, E2 in Herrp.
    split.
    + apply (Z.mul_le_mono_pos_l _ _ T); [assumption|]. nia.
    + apply (Z.mul_le_mono_pos_l _ _ T); [assumption|]. nia. }
  assert (Hneg : ep < 0 → E = 2 ^ (- ep) * S).
  { intros Hn. unfold E, S. rewrite <- Z.pow_add_r by (unfold ep in *; lia).
    f_equal. unfold ep. lia. }
  assert (Hnn : 0 <= ep → S = 2 ^ ep * E).
  { intros Hn. unfold E, S. rewrite <- Z.pow_add_r by (unfold eq in *; lia).
    f_equal. unfold ep. lia. }
  split; [apply Ht; assumption|].
  split; [apply pow2_pos; lia|].
  destruct (Z.lt_ge_cases ep 0) as [Hn|Hn].
  - left. rewrite Z.abs_neq by lia. apply Hneg. assumption.
  - right. rewrite Z.abs_eq by lia. apply Hnn. lia.
Qed.

(** When [h] divides [a] nothing is lost: the quotient is the integer
    [a / h], the product is exact, and so is the result. *)
Theorem scaled_exact a w h :
  0 < a < 2 ^ 50 → 0 <= w → 0 < h → a * w + h < 2 ^ 50 → a mod h = 0 →
  scaled a w h = Some (w * (a / h)).
Proof.
  intros Ha Hw Hh Hsmall Hdiv.
  destruct (Z.eq_dec w 0) as [->|Hw0].
  { assert (H0 : scaled a 0 h = Some 0).
    { assert (H50 : 2 ^ 50 < 2 ^ 53) by (apply Z.pow_lt_mono_r; lia).
      destruct (of_int_exact a ltac:(lia)) as (m1 & j1 & Ea & Hj1 & Hm1 & Rm1).
      destruct (of_int_exact h ltac:(lia)) as (m2 & j2 & Eh & Hj2 & Hm2 & Rm2).
      destruct (SFdiv_normal m1 m2 (- j1) (- j2) Rm1 Rm2 ltac:(lia))
        as (mq & k & Ediv & _).
      unfold scaled. rewrite Ea, Eh. unfold div. rewrite Ediv. reflexivity. }
    rewrite H0. reflexivity. }
  destruct (scaled_roundings a w h Ha ltac:(lia) Hh Hsmall)
    as (mq & E & mp & S & t & N & Et & Rmq & HE & Hq & Rmp & HS & Hp & Ht & HN & Hrel).
  rewrite Et. f_equal.
  pose proof (Z.div_mod a h ltac:(lia)) as Hdm. rewrite Hdiv, Z.add_0_r in Hdm.
  set (n := a / h) in *.
  assert (Hn : 0 < n) by nia.
  assert (Hwn : w * n < 2 ^ 50) by nia.
  change (2 ^ 50) with 1125899906842624 in *.
  change (2 ^ 52) with 4503599627370496 in *.
  change (2 ^ 53) with 9007199254740992 in *.
  (* the quotient is exact *)
  assert (Hmq : mq = n * E).
  { rewrite Hdm in Hq.
    replace (mq * h - h * n * E) with ((mq - n * E) * h) in Hq by ring.
    destruct (Z.lt_trichotomy (mq - n * E) 0) as [Hl|[He|Hg]]; [exfalso|lia|exfalso].
    - assert ((mq - n * E) * h <= -1 * h) by (apply Z.mul_le_mono_nonneg_r; lia). lia.
    - assert (1 * h <= (mq - n * E) * h) by (apply Z.mul_le_mono_nonneg_r; lia). lia. }
  subst mq.
  destruct Hrel as [HES | HSE].
  - (* the product is exact too *)
    assert (Hmp : mp = w * n * N).
    { rewrite HES in Hp.
      replace (mp * S - w * (n * (N * S))) with ((mp - w * n * N) * S) in Hp by ring.
      destruct (Z.lt_trichotomy (mp - w * n * N) 0) as [Hl|[He|Hg]]; [exfalso|lia|exfalso].
      - assert ((mp - w * n * N) * S <= -1 * S) by (apply Z.mul_le_mono_nonneg_r; lia). lia.
      - assert (1 * S <= (mp - w * n * N) * S) by (apply Z.mul_le_mono_nonneg_r; lia). lia. }
    subst mp. rewrite HES in Ht.
    replace (w * n * N * S) with ((w * n) * (N * S)) in Ht by ring.
    assert (HNS : 0 < N * S) by (apply Z.mul_pos_pos; assumption).
    revert Ht HNS. generalize (N * S). intros G [Ht1 Ht2] HG.
    apply Z.mul_le_mono_pos_r in Ht1; [|assumption].
    apply Z.mul_lt_mono_pos_r in Ht2; [|assumption]. lia.
  - (* a unit above 1 would need a product of 2^52 or more *)
    exfalso. rewrite HSE in Hp.
    replace (mp * (N * E) - w * (n * E)) with ((mp * N - w * n) * E) in Hp by ring.
    assert (Hle : 2 * (mp * N - w * n) <= N).
    { apply (Z.mul_le_mono_pos_r _ _ E); [assumption|]. lia. }
    assert (4503599627370496 * N <= mp * N) by (apply Z.mul_le_mono_nonneg_r; lia).
    lia.
Qed.

End Float64Exact.

(* ===================================================================== *)
(** ** The bounding box: what getbbox computes                             *)
(* ===================================================================== *)

Module BBoxFacts.
Import PIL BBox.

Lemma has_alpha_true im x y :
  has_alpha im x y = true ↔ (0 < alpha (getpixel im x y))%N.
Proof.
  unfold has_alpha. rewrite negb_true_iff, N.eqb_neq. lia.
Qed.

Lemma has_alpha_false im x y :
  has_alpha im x y = false ↔ alpha (getpixel im x y) = 0%N.
Proof.
  unfold has_alpha. rewrite negb_false_iff, N.eqb_eq. tauto.
Qed.

Lemma row_inv_start im y b0 b2 : row_inv im y 0 b0 b2 b0 b2 false.
Proof.
  split; [|discriminate].
  intros _. repeat split. intros x Hx. lia.
Qed.

(** Column [n] is transparent: nothing changes. *)
Lemma row_inv_skip im y n b0 b2 c0 c2 hd :
  has_alpha im n y = false →
  row_inv im y n b0 b2 c0 c2 hd → row_inv im y (S n) b0 b2 c0 c2 hd.
Proof.
  intros Ha [Hnone Hsome]. split.
  - intros Hhd. destruct (Hnone Hhd) as (E0 & E2 & Hz).
    repeat split; try assumption.
    intros x Hx. destruct (decide (x = n)) as [->|Hne]; [assumption|].
    apply Hz. lia.
  - intros Hhd. destruct (Hsome Hhd) as (H0 & H2 & Hin & Hl & Hr & Hex).
    split; [assumption|]. split; [assumption|]. split; [|split; [|split]].
    + intros x Hx Hax. destruct (decide (x = n)) as [->|Hne]; [congruence|].
      apply Hin; [lia | assumption].
    + destruct Hl as [Hl | (x & Hx & Hax & Hc)]; [left; assumption|].
      right. exists x. repeat split; (lia || assumption).
    + destruct Hr as [Hr | (x & Hx & Hax & Hc)]; [left; assumption|].
      right. exists x. repeat split; (lia || assumption).
    + destruct Hex as (x & Hx & Hax). exists x. split; [lia | assumption].
Qed.

(** Column [n] is visible: the two C updates of [bbox[0]] and [bbox[2]]. *)
Lemma row_inv_hit im y n b0 b2 c0 c2 hd :
  has_alpha im n y = true →
  row_inv im y n b0 b2 c0 c2 hd →
  row_inv im y (S n) b0 b2
    (if Z.of_nat n <? c0 then Z.of_nat n else c0)
    (if Z.of_nat n >=? c2 then Z.of_nat n + 1 else c2) true.
Proof.
  intros Ha [Hnone Hsome]. split; [discriminate|]. intros _.
  rewrite Z.geb_leb.
  assert (Hprev : c0 <= b0 ∧ b2 <= c2 ∧
            (∀ x, (x < n)%nat → has_alpha im x y = true → c0 <= Z.of_nat x < c2) ∧
            (c0 = b0 ∨ ∃ x, (x < n)%nat ∧ has_alpha im x y = true ∧ c0 = Z.of_nat x) ∧
            (c2 = b2 ∨ ∃ x, (x < n)%nat ∧ has_alpha im x y = true ∧ c2 = Z.of_nat x + 1)).
  { destruct hd.
    - destruct (Hsome eq_refl) as (H0 & H2 & Hin & Hl & Hr & _). auto.
    - destruct (Hnone eq_refl) as (-> & -> & Hz).
      split; [lia|]. split; [lia|]. split; [|split; left; reflexivity].
      intros x Hx Hax. rewrite Hz in Hax by assumption. discriminate. }
  destruct Hprev as (H0 & H2 & Hin & Hl & Hr).
  split; [|split; [|split; [|split; [|split]]]].
  - destruct (Z.ltb_spec (Z.of_nat n) c0); lia.
  - destruct (Z.leb_spec c2 (Z.of_nat n)); lia.
  - intros x Hx Hax. destruct (decide (x = n)) as [->|Hne].
    + destruct (Z.ltb_spec (Z.of_nat n) c0), (Z.leb_spec c2 (Z.of_nat n)); lia.
    + specialize (Hin x ltac:(lia) Hax).
      destruct (Z.ltb_spec (Z.of_nat n) c0), (Z.leb_spec c2 (Z.of_nat n)); lia.
  - destruct (Z.ltb_spec (Z.of_nat n) c0).
    + right. exists n. repeat split; (lia || assumption).
    + destruct Hl as [Hl | (x & Hx & Hax & Hc)]; [left; assumption|].
      right. exists x. repeat split; (lia || assumption).
  - destruct (Z.leb_spec c2 (Z.of_nat n)).
    + right. exists n. repeat split; (lia || assumption).
    + destruct Hr as [Hr | (x & Hx & Hax & Hc)]; [left; assumption|].
      right. exists x. repeat split; (lia || assumption).
  - exists n. split; [lia | assumption].
Qed.

Lemma scan_pixels_inv im y b0 b1 b2 b3 n :
  ∃ c0 c2 hd,
    fold_left (scan_pixel im y) (seq 0 n) ((b0, b1, b2, b3) : box, false)
      = ((c0, b1, c2, b3) : box, hd)
    ∧ row_inv im y n b0 b2 c0 c2 hd.
Proof.
  induction n as [|n IH].
  - exists b0, b2, false. split; [reflexivity | apply row_inv_start].
  - destruct IH as (c0 & c2 & hd & Hfold & Hinv).
    rewrite seq_S, fold_left_app, Hfold. cbn [fold_left Nat.add scan_pixel].
    destruct (has_alpha im n y) eqn:Ha.
    + eexists _, _, true. split; [reflexivity|].
      eapply row_inv_hit; eassumption.
    + exists c0, c2, hd. split; [reflexivity|].
      apply row_inv_skip; assumption.
Qed.

Lemma seen_mono im m P : seen im m P → seen im (S m) P.
Proof.
  intros (x & y & Hx & Hy & Ha & HP). exists x, y. repeat split; (lia || assumption).
Qed.

Lemma scan_row_inv im m bb :
  scan_inv im m bb → scan_inv im (S m) (scan_row im bb m).
Proof.
  destruct bb as [[[b0 b1] b2] b3]. unfold scan_inv, scan_row.
  destruct (scan_pixels_inv im m b0 b1 b2 b3 (xsize im))
    as (c0 & c2 & hd & -> & [Hnone Hsome]).
  destruct hd.
  - (* the row has data *)
    destruct (Hsome eq_refl) as (H0 & H2 & Hin & Hl & Hr & (xw & Hxw & Haw)).
    pose proof (Hin xw Hxw Haw) as Hw.
    intros [(Hneg & Heq & Hclear) | (Hpos & [Hb Hleft Hup Hright Hlow])].
    + destruct Heq as (-> & -> & ->). right.
      destruct (Z.ltb_spec b1 0) as [_|Hge]; [|lia].
      split; [lia|].
      destruct Hl as [Hl | (xl & Hxl & Hal & Hcl)]; [lia|].
      destruct Hr as [Hr | (xr & Hxr & Har & Hcr)]; [lia|].
      split.
      * intros x y Hx Hy Ha. destruct (decide (y = m)) as [->|Hne].
        -- specialize (Hin x Hx Ha). lia.
        -- rewrite Hclear in Ha by lia. discriminate.
      * exists xl, m. repeat split; (lia || assumption).
      * exists xw, m. repeat split; (lia || assumption).
      * exists xr, m. repeat split; (lia || assumption).
      * exists xw, m. repeat split; (lia || assumption).
    + right. destruct (Z.ltb_spec b1 0) as [Hlt|_]; [lia|].
      destruct Hup as (xu & yu & Hxu & Hyu & Hau & Hu).
      split; [lia|]. split.
      * intros x y Hx Hy Ha. destruct (decide (y = m)) as [->|Hne].
        -- specialize (Hin x Hx Ha). lia.
        -- specialize (Hb x y Hx ltac:(lia) Ha). lia.
      * destruct Hl as [-> | (xl & Hxl & Hal & Hcl)]; [apply seen_mono; assumption|].
        exists xl, m. repeat split; (lia || assumption).
      * exists xu, yu. repeat split; (lia || assumption).
      * destruct Hr as [-> | (xr & Hxr & Har & Hcr)]; [apply seen_mono; assumption|].
        exists xr, m. repeat split; (lia || assumption).
      * exists xw, m. repeat split; (lia || assumption).
  - (* the row is transparent *)
    destruct (Hnone eq_refl) as (-> & -> & Hz).
    intros [(Hneg & Heq & Hclear) | (Hpos & [Hb Hleft Hup Hright Hlow])].
    + left. split; [assumption|]. split; [assumption|].
      intros x y Hx Hy. destruct (decide (y = m)) as [->|Hne]; [apply Hz; assumption|].
      apply Hclear; lia.
    + right. split; [assumption|]. split; try (apply seen_mono; assumption).
      intros x y Hx Hy Ha. destruct (decide (y = m)) as [->|Hne].
      * rewrite Hz in Ha by assumption. discriminate.
      * apply Hb; (lia || assumption).
Qed.

Lemma scan_rows_inv im m :
  scan_inv im m
    (fold_left (scan_row im) (seq 0 m) (Z.of_nat (xsize im), -1, 0, 0)).
Proof.
  induction m as [|m IH].
  - left. split; [lia|]. split; [auto|]. intros x y _ Hy. lia.
  - rewrite seq_S, fold_left_app. cbn [fold_left Nat.add].
    apply scan_row_inv. assumption.
Qed.

(** [getbbox] returns None exactly on an image without a visible
    pixel, and otherwise the tight box. *)
Lemma getbbox_None im :
  getbbox im = None ↔ rows_clear im (ysize im).
Proof.
  unfold getbbox. pose proof (scan_rows_inv im (ysize im)) as H.
  destruct (fold_left _ _ _) as [[[b0 b1] b2] b3]. cbn in H.
  destruct H as [(Hneg & _ & Hclear) | (Hpos & [Hb _ Hup _ _])].
  - destruct (Z.ltb_spec b1 0); [tauto | lia].
  - destruct (Z.ltb_spec b1 0); [lia|].
    split; [discriminate|]. intros Hclear.
    destruct Hup as (x & y & Hx & Hy & Ha & _).
    rewrite Hclear in Ha by assumption. discriminate.
Qed.

Lemma getbbox_Some im b0 b1 b2 b3 :
  getbbox im = Some (b0, b1, b2, b3) → box_inv im (ysize im) b0 b1 b2 b3.
Proof.
  unfold getbbox. pose proof (scan_rows_inv im (ysize im)) as H.
  destruct (fold_left _ _ _) as [[[c0 c1] c2] c3]. cbn in H.
  destruct (Z.ltb_spec c1 0); [discriminate|].
  intros [= <- <- <- <-].
  destruct H as [(Hneg & _) | (_ & H)]; [lia | assumption].
Qed.

(** Cropping to a box that lies inside the image copies that region. *)
Lemma crop_inside im (l u r d : nat) :
  (l <= r <= xsize im)%nat → (u <= d <= ysize im)%nat →
  ∃ c, crop im (Z.of_nat l, Z.of_nat u, Z.of_nat r, Z.of_nat d) = Ok c
       ∧ xsize c = (r - l)%nat ∧ ysize c = (d - u)%nat
       ∧ ∀ x y, (x < r - l)%nat → (y < d - u)%nat →
           getpixel c x y = getpixel im (l + x) (u + y).
Proof.
  intros Hx Hy. unfold crop.
  destruct (Z.ltb_spec (Z.of_nat r) (Z.of_nat l)); [lia|].
  destruct (Z.ltb_spec (Z.of_nat d) (Z.of_nat u)); [lia|].
  eexists. split; [reflexivity|]. cbn [xsize ysize getpixel].
  split; [lia|]. split; [lia|].
  intros x y Hxx Hyy.
  replace (Z.of_nat l + Z.of_nat x) with (Z.of_nat (l + x)) by lia.
  replace (Z.of_nat u + Z.of_nat y) with (Z.of_nat (u + y)) by lia.
  rewrite !Nat2Z.id.
  destruct (Z.leb_spec 0 (Z.of_nat (l + x))); [|lia].
  destruct (Z.ltb_spec (Z.of_nat (l + x)) (Z.of_nat (xsize im))); [|lia].
  destruct (Z.leb_spec 0 (Z.of_nat (u + y))); [|lia].
  destruct (Z.ltb_spec (Z.of_nat (u + y)) (Z.of_nat (ysize im))); [|lia].
  reflexivity.
Qed.

End BBoxFacts.

(* ===================================================================== *)
(** ** Autocrop                                                            *)
(* ===================================================================== *)

(** C3.  On an image with at least one pixel of alpha > 0, [getbbox] is the
    minimal rectangle [l, r) x [u, d) holding every such pixel: all of them
    lie inside, each of the four edges touches one (so no margin can shrink
    further, and any rectangle holding them all contains this one), and the
    autocrop yields exactly that region of the image.  Membership is
    decided by alpha alone. *)
Theorem autocrop_minimal_bounding_box (im : PIL.image) :
  (∃ x y, BBox.visible im x y) →
  ∃ l u r d : nat,
    PIL.getbbox im = Some (Z.of_nat l, Z.of_nat u, Z.of_nat r, Z.of_nat d)
    ∧ (∀ x y, BBox.visible im x y → (l <= x < r)%nat ∧ (u <= y < d)%nat)
    ∧ (∃ y, BBox.visible im l y) ∧ (∃ y, BBox.visible im (r - 1) y)
    ∧ (∃ x, BBox.visible im x u) ∧ (∃ x, BBox.visible im x (d - 1))
    ∧ (∀ l' u' r' d' : nat,
         (∀ x y, BBox.visible im x y → (l' <= x < r')%nat ∧ (u' <= y < d')%nat) →
         (l' <= l)%nat ∧ (r <= r')%nat ∧ (u' <= u)%nat ∧ (d <= d')%nat)
    ∧ ∃ c, autocrop im = Ok c
           ∧ PIL.xsize c = (r - l)%nat ∧ PIL.ysize c = (d - u)%nat
           ∧ ∀ x y, (x < r - l)%nat → (y < d - u)%nat →
               PIL.getpixel c x y = PIL.getpixel im (l + x) (u + y).
Proof.
  intros (x0 & y0 & Hx0 & Hy0 & Ha0).
  destruct (PIL.getbbox im) as [[[[b0 b1] b2] b3]|] eqn:Hbb.
  2:{ apply BBoxFacts.getbbox_None in Hbb. specialize (Hbb x0 y0 Hx0 Hy0).
      apply BBoxFacts.has_alpha_false in Hbb. lia. }
  destruct (BBoxFacts.getbbox_Some _ _ _ _ _ Hbb) as [Hb Hl Hu Hr Hd].
  destruct Hl as (xl & yl & Hxl & Hyl & Hal & ->).
  destruct Hu as (xu & yu & Hxu & Hyu & Hau & ->).
  destruct Hr as (xr & yr & Hxr & Hyr & Har & ->).
  destruct Hd as (xd & yd & Hxd & Hyd & Had & ->).
  assert (Hin : ∀ x y, BBox.visible im x y →
                  (xl <= x < S xr)%nat ∧ (yu <= y < S yd)%nat).
  { intros x y (Hx & Hy & Ha). apply BBoxFacts.has_alpha_true in Ha.
    specialize (Hb x y Hx Hy Ha). lia. }
  assert (Vl : BBox.visible im xl yl) by (repeat split; try assumption; apply BBoxFacts.has_alpha_true; assumption).
  assert (Vu : BBox.visible im xu yu) by (repeat split; try assumption; apply BBoxFacts.has_alpha_true; assumption).
  assert (Vr : BBox.visible im xr yr) by (repeat split; try assumption; apply BBoxFacts.has_alpha_true; assumption).
  assert (Vd : BBox.visible im xd yd) by (repeat split; try assumption; apply BBoxFacts.has_alpha_true; assumption).
  exists xl, yu, (S xr), (S yd).
  split; [f_equal; f_equal; [f_equal|]; try f_equal; lia|].
  split; [exact Hin|].
  split; [exists yl; exact Vl|].
  split; [exists yr; replace (S xr - 1)%nat with xr by lia; exact Vr|].
  split; [exists xu; exact Vu|].
  split; [exists xd; replace (S yd - 1)%nat with yd by lia; exact Vd|].
  split.
  - intros l' u' r' d' H'.
    pose proof (H' _ _ Vl). pose proof (H' _ _ Vu).
    pose proof (H' _ _ Vr). pose proof (H' _ _ Vd). lia.
  - unfold autocrop. rewrite Hbb.
    replace (Z.of_nat xr + 1) with (Z.of_nat (S xr)) by lia.
    replace (Z.of_nat yd + 1) with (Z.of_nat (S yd)) by lia.
    apply BBoxFacts.crop_inside.
    + pose proof (Hin _ _ Vl). lia.
    + pose proof (Hin _ _ Vu). lia.
Qed.

Lemma autocrop_minimal_bounding_box_witness :
  ∃ l u r d : nat,
    PIL.getbbox strip_4x3 = Some (Z.of_nat l, Z.of_nat u, Z.of_nat r, Z.of_nat d)
    ∧ (∀ x y, BBox.visible strip_4x3 x y → (l <= x < r)%nat ∧ (u <= y < d)%nat)
    ∧ (∃ y, BBox.visible strip_4x3 l y) ∧ (∃ y, BBox.visible strip_4x3 (r - 1) y)
    ∧ (∃ x, BBox.visible strip_4x3 x u) ∧ (∃ x, BBox.visible strip_4x3 x (d - 1))
    ∧ (∀ l' u' r' d' : nat,
         (∀ x y, BBox.visible strip_4x3 x y → (l' <= x < r')%nat ∧ (u' <= y < d')%nat) →
         (l' <= l)%nat ∧ (r <= r')%nat ∧ (u' <= u)%nat ∧ (d <= d')%nat)
    ∧ ∃ c, autocrop strip_4x3 = Ok c
           ∧ PIL.xsize c = (r - l)%nat ∧ PIL.ysize c = (d - u)%nat
           ∧ ∀ x y, (x < r - l)%nat → (y < d - u)%nat →
               PIL.getpixel c x y = PIL.getpixel strip_4x3 (l + x) (u + y).
Proof.
  apply (autocrop_minimal_bounding_box strip_4x3).
  exists 1%nat, 1%nat. unfold BBox.visible. simpl. lia.
Defined.

Example getbbox_strip_4x3 : PIL.getbbox strip_4x3 = Some (1, 1, 3, 2).
Proof. reflexivity. Qed.

Example getbbox_clear_2x2 : PIL.getbbox clear_2x2 = None.
Proof. reflexivity. Qed.

(** A 200 x 100 buffer becomes 600 x 300. *)
Example new_size_200x100 : new_size 200 100 = Ok (600, 300).
Proof. vm_compute. reflexivity. Qed.

(** The margin is cropped away and the 100 x 50 region becomes 600 x 300. *)
Example autocrop_framed_200x150 :
  PIL.getbbox framed_200x150 = Some (50, 50, 150, 100)
  ∧ (∃ c, autocrop framed_200x150 = Ok c ∧ PIL.size c = (100, 50))
  ∧ new_size 100 50 = Ok (600, 300).
Proof.
  assert (H : PIL.getbbox framed_200x150 = Some (50, 50, 150, 100))
    by (vm_compute; reflexivity).
  split; [exact H|]. split; [|vm_compute; reflexivity].
  unfold autocrop. rewrite H. eexists. split; reflexivity.
Qed.

(** Converting a layout without alpha and without a transparency key
    gives alpha 255 everywhere. *)
Lemma convert_RGBA_opaque w h px x y :
  PIL.alpha (PIL.getpixel (PIL.convert_RGBA (PIL.ModeRGB w h px None)) x y) = 255%N
  ∧ PIL.size (PIL.convert_RGBA (PIL.ModeRGB w h px None)) = (Z.of_nat w, Z.of_nat h).
Proof.
  split; [|reflexivity]. cbn [PIL.convert_RGBA PIL.getpixel].
  destruct (px x y) as [[r g] b]. reflexivity.
Qed.

(* ===================================================================== *)
(** ** More on the autocrop                                                *)
(* ===================================================================== *)

(** The box [getbbox] returns, in naturals, with what makes it tight. *)
Lemma getbbox_Some_tight im bb :
  PIL.getbbox im = Some bb →
  ∃ l u r d : nat,
    bb = (Z.of_nat l, Z.of_nat u, Z.of_nat r, Z.of_nat d)
    ∧ (l < r <= PIL.xsize im)%nat ∧ (u < d <= PIL.ysize im)%nat
    ∧ (∀ x y, BBox.visible im x y → (l <= x < r)%nat ∧ (u <= y < d)%nat)
    ∧ (∃ y, BBox.visible im l y) ∧ (∃ y, BBox.visible im (r - 1) y)
    ∧ (∃ x, BBox.visible im x u) ∧ (∃ x, BBox.visible im x (d - 1)).
Proof.
  destruct bb as [[[b0 b1] b2] b3]. intros Hbb.
  destruct (BBoxFacts.getbbox_Some _ _ _ _ _ Hbb) as [Hb Hl Hu Hr Hd].
  destruct Hl as (xl & yl & Hxl & Hyl & Hal & ->).
  destruct Hu as (xu & yu & Hxu & Hyu & Hau & ->).
  destruct Hr as (xr & yr & Hxr & Hyr & Har & ->).
  destruct Hd as (xd & yd & Hxd & Hyd & Had & ->).
  assert (V : ∀ x y, (x < PIL.xsize im)%nat → (y < PIL.ysize im)%nat →
                PIL.has_alpha im x y = true → BBox.visible im x y).
  { intros x y Hx Hy Ha. repeat split; try assumption.
    apply BBoxFacts.has_alpha_true. assumption. }
  assert (Hin : ∀ x y, BBox.visible im x y →
                  (xl <= x < S xr)%nat ∧ (yu <= y < S yd)%nat).
  { intros x y (Hx & Hy & Ha). apply BBoxFacts.has_alpha_true in Ha.
    specialize (Hb x y Hx Hy Ha). lia. }
  pose proof (Hin _ _ (V _ _ Hxl Hyl Hal)).
  pose proof (Hin _ _ (V _ _ Hxu Hyu Hau)).
  exists xl, yu, (S xr), (S yd).
  split.
  { replace (Z.of_nat xr + 1) with (Z.of_nat (S xr)) by lia.
    replace (Z.of_nat yd + 1) with (Z.of_nat (S yd)) by lia. reflexivity. }
  split; [lia|]. split; [lia|]. split; [exact Hin|].
  replace (S xr - 1)%nat with xr by lia. replace (S yd - 1)%nat with yd by lia.
  repeat split; eauto.
Qed.

(** The two ways the autocrop goes. *)
Lemma autocrop_cases im :
  (PIL.getbbox im = None ∧ autocrop im = Ok im)
  ∨ ∃ (l u r d : nat) c,
      PIL.getbbox im = Some (Z.of_nat l, Z.of_nat u, Z.of_nat r, Z.of_nat d)
      ∧ autocrop im = Ok c
      ∧ (l < r <= PIL.xsize im)%nat ∧ (u < d <= PIL.ysize im)%nat
      ∧ PIL.xsize c = (r - l)%nat ∧ PIL.ysize c = (d - u)%nat
      ∧ (∀ x y, (x < r - l)%nat → (y < d - u)%nat →
           PIL.getpixel c x y = PIL.getpixel im (l + x) (u + y))
      ∧ (∃ y, BBox.visible im l y) ∧ (∃ y, BBox.visible im (r - 1) y)
      ∧ (∃ x, BBox.visible im x u) ∧ (∃ x, BBox.visible im x (d - 1))
      ∧ (∀ x y, BBox.visible im x y → (l <= x < r)%nat ∧ (u <= y < d)%nat).
Proof.
  unfold autocrop. destruct (PIL.getbbox im) as [bb|] eqn:Hbb; [right | left; auto].
  destruct (getbbox_Some_tight im bb Hbb)
    as (l & u & r & d & -> & Hx & Hy & Hin & Vl & Vr & Vu & Vd).
  destruct (BBoxFacts.crop_inside im l u r d ltac:(lia) ltac:(lia))
    as (c & Hc & Hw & Hh & Hpx).
  exists l, u, r, d, c.
  split; [reflexivity|]. split; [assumption|]. split; [lia|]. split; [lia|].
  split; [assumption|]. split; [assumption|]. split; [assumption|].
  split; [assumption|]. split; [assumption|]. split; [assumption|].
  split; assumption.
Qed.

(** X1: lines 25-33.  The autocrop never raises and never enlarges: the box
    [getbbox] returns is always one [crop] accepts, and the buffer that
    goes on has width 0 only if the image has, and height 0 only if the
    image has.  So the zero-height skip is taken for empty images only. *)
Theorem autocrop_total im :
  ∃ c, autocrop im = Ok c
       ∧ (PIL.xsize c <= PIL.xsize im)%nat ∧ (PIL.ysize c <= PIL.ysize im)%nat
       ∧ (PIL.xsize c = 0%nat ↔ PIL.xsize im = 0%nat)
       ∧ (PIL.ysize c = 0%nat ↔ PIL.ysize im = 0%nat).
Proof.
  destruct (autocrop_cases im)
    as [[_ H] | (l & u & r & d & c & _ & H & Hx & Hy & Hw & Hh & _)].
  - exists im. repeat split; auto.
  - exists c. split; [assumption|]. rewrite Hw, Hh. repeat split; lia.
Qed.

(** An image with a visible pixel in its first and last column and row has
    the whole image as bounding box. *)
Lemma getbbox_bordered im :
  (∃ y, BBox.visible im 0 y) → (∃ y, BBox.visible im (PIL.xsize im - 1) y) →
  (∃ x, BBox.visible im x 0) → (∃ x, BBox.visible im x (PIL.ysize im - 1)) →
  PIL.getbbox im
  = Some (0, 0, Z.of_nat (PIL.xsize im), Z.of_nat (PIL.ysize im)).
Proof.
  intros [yl Vl] [yr Vr] [xu Vu] [xd Vd].
  destruct (autocrop_cases im)
    as [[Hnone _] | (l & u & r & d & c & Hbb & _ & Hx & Hy & _ & _ & _ & _ & _ & _ & _ & Hin)].
  - apply BBoxFacts.getbbox_None in Hnone.
    destruct Vl as (Hx & Hy & Ha). specialize (Hnone _ _ Hx Hy).
    apply BBoxFacts.has_alpha_false in Hnone. lia.
  - pose proof (Hin _ _ Vl). pose proof (Hin _ _ Vr).
    pose proof (Hin _ _ Vu). pose proof (Hin _ _ Vd).
    rewrite Hbb.
    replace l with 0%nat by lia. replace u with 0%nat by lia.
    replace r with (PIL.xsize im) by lia. replace d with (PIL.ysize im) by lia.
    reflexivity.
Qed.

(** X2: lines 25-29.  An image with a visible pixel in its first and last
    column and in its first and last row is not cropped: the buffer that
    goes on has its size and its pixels. *)
Theorem bordered_image_not_cropped im :
  (∃ y, BBox.visible im 0 y) → (∃ y, BBox.visible im (PIL.xsize im - 1) y) →
  (∃ x, BBox.visible im x 0) → (∃ x, BBox.visible im x (PIL.ysize im - 1)) →
  ∃ c, autocrop im = Ok c
       ∧ PIL.xsize c = PIL.xsize im ∧ PIL.ysize c = PIL.ysize im
       ∧ ∀ x y, (x < PIL.xsize im)%nat → (y < PIL.ysize im)%nat →
           PIL.getpixel c x y = PIL.getpixel im x y.
Proof.
  intros Vl Vr Vu Vd. unfold autocrop.
  rewrite (getbbox_bordered im Vl Vr Vu Vd).
  destruct (BBoxFacts.crop_inside im 0 0 (PIL.xsize im) (PIL.ysize im)
              ltac:(lia) ltac:(lia)) as (c & Hc & Hw & Hh & Hpx).
  exists c. change (Z.of_nat 0) with 0 in Hc. split; [assumption|].
  rewrite Hw, Hh. split; [lia|]. split; [lia|].
  intros x y Hx Hy. apply (Hpx x y); lia.
Qed.

(** X3: lines 25-29.  The autocrop is idempotent: applied to the buffer it
    returned, it returns a buffer of the same size and pixels. *)
Theorem autocrop_idempotent im c :
  autocrop im = Ok c →
  ∃ c', autocrop c = Ok c'
        ∧ PIL.xsize c' = PIL.xsize c ∧ PIL.ysize c' = PIL.ysize c
        ∧ ∀ x y, (x < PIL.xsize c)%nat → (y < PIL.ysize c)%nat →
            PIL.getpixel c' x y = PIL.getpixel c x y.
Proof.
  intros Hc.
  destruct (autocrop_cases im)
    as [[_ H] | (l & u & r & d & c0 & _ & H & Hx & Hy & Hw & Hh & Hpx
                 & [yl Vl] & [yr Vr] & [xu Vu] & [xd Vd] & Hin)];
    rewrite H in Hc; injection Hc as <-.
  - exists im. repeat split; auto.
  - (* the cropped image touches its four borders *)
    assert (V : ∀ x y, BBox.visible im x y →
                  BBox.visible c0 (x - l) (y - u)).
    { intros x y Hv. destruct (Hin _ _ Hv) as [Hxx Hyy].
      destruct Hv as (_ & _ & Ha).
      unfold BBox.visible. rewrite Hw, Hh, Hpx by lia.
      replace (l + (x - l))%nat with x by lia.
      replace (u + (y - u))%nat with y by lia.
      repeat split; (lia || assumption). }
    pose proof (V _ _ Vl) as Wl. pose proof (V _ _ Vr) as Wr.
    pose proof (V _ _ Vu) as Wu. pose proof (V _ _ Vd) as Wd.
    replace (l - l)%nat with 0%nat in Wl by lia.
    replace (r - 1 - l)%nat with (PIL.xsize c0 - 1)%nat in Wr by lia.
    replace (u - u)%nat with 0%nat in Wu by lia.
    replace (d - 1 - u)%nat with (PIL.ysize c0 - 1)%nat in Wd by lia.
    unfold autocrop. rewrite (getbbox_bordered c0); eauto.
    destruct (BBoxFacts.crop_inside c0 0 0 (PIL.xsize c0) (PIL.ysize c0)
                ltac:(lia) ltac:(lia)) as (c' & Hc' & Hw' & Hh' & Hpx').
    exists c'. change (Z.of_nat 0) with 0 in Hc'. split; [assumption|].
    rewrite Hw', Hh'. split; [lia|]. split; [lia|].
    intros x y Hxx Hyy. apply (Hpx' x y); lia.
Qed.

(** An image visible everywhere is returned whole, whatever its size. *)
Lemma autocrop_all_visible im :
  (∀ x y, (x < PIL.xsize im)%nat → (y < PIL.ysize im)%nat →
          (0 < PIL.alpha (PIL.getpixel im x y))%N) →
  ∃ c, autocrop im = Ok c
       ∧ PIL.xsize c = PIL.xsize im ∧ PIL.ysize c = PIL.ysize im
       ∧ ∀ x y, (x < PIL.xsize im)%nat → (y < PIL.ysize im)%nat →
           PIL.getpixel c x y = PIL.getpixel im x y.
Proof.
  intros Hvis.
  destruct (autocrop_cases im)
    as [[_ H] | (l & u & r & d & c & _ & H & Hx & Hy & Hw & Hh & Hpx & _ & _ & _ & _ & Hin)].
  - exists im. repeat split; auto.
  - assert (V0 : BBox.visible im 0 0).
    { repeat split; try lia. apply Hvis; lia. }
    assert (V1 : BBox.visible im (PIL.xsize im - 1) (PIL.ysize im - 1)).
    { repeat split; try lia. apply Hvis; lia. }
    pose proof (Hin _ _ V0). pose proof (Hin _ _ V1).
    exists c. split; [assumption|]. split; [lia|]. split; [lia|].
    intros x y Hxx Hyy. rewrite Hpx by lia. f_equal; lia.
Qed.

(** X4: lines 21-29.  An image decoded without an alpha channel and
    without a transparency key (any JPEG; a PNG without tRNS) is opaque
    after [convert("RGBA")], and the autocrop returns it whole: same size,
    same pixels, whatever the size, also 0.  With a transparency key the
    pixels of the key colour get alpha 0 and the image may be cropped
    ([keyed_image_is_cropped]). *)
Theorem image_without_alpha_not_cropped w h :
  ∀ native,
    (∃ px, native = PIL.ModeRGB w h px None)
    ∨ (∃ px, native = PIL.ModeL w h px None) →
    ∃ c, autocrop (PIL.convert_RGBA native) = Ok c
         ∧ PIL.size c = (Z.of_nat w, Z.of_nat h)
         ∧ ∀ x y, (x < w)%nat → (y < h)%nat →
             PIL.getpixel c x y = PIL.getpixel (PIL.convert_RGBA native) x y
             ∧ PIL.alpha (PIL.getpixel c x y) = 255%N.
Proof.
  intros native Hnative.
  assert (Hop : ∀ x y, PIL.alpha (PIL.getpixel (PIL.convert_RGBA native) x y) = 255%N).
  { intros x y. destruct Hnative as [[px ->] | [px ->]].
    - apply (convert_RGBA_opaque w h px x y).
    - reflexivity. }
  assert (Hsz : PIL.xsize (PIL.convert_RGBA native) = w
                ∧ PIL.ysize (PIL.convert_RGBA native) = h).
  { destruct Hnative as [[px ->] | [px ->]]; split; reflexivity. }
  destruct Hsz as [Hw Hh].
  destruct (autocrop_all_visible (PIL.convert_RGBA native))
    as (c & Hc & Hcw & Hch & Hpx).
  { intros x y _ _. rewrite Hop. reflexivity. }
  exists c. split; [assumption|]. unfold PIL.size. rewrite Hcw, Hch, Hw, Hh.
  split; [reflexivity|]. intros x y Hx Hy.
  rewrite Hpx by lia. split; [reflexivity | apply Hop].
Qed.

(** A 4 x 3 RGB image that is white but for two red pixels in its middle
    row, with white as transparency key, is cropped to 2 x 1. *)
Example keyed_image_is_cropped :
  ∃ c, autocrop (PIL.convert_RGBA Runs.native_keyed) = Ok c ∧ PIL.size c = (2, 1).
Proof. eexists. split; reflexivity. Qed.

(* ===================================================================== *)
(** ** Running the script                                                  *)
(* ===================================================================== *)

Section Properties.

Variable fault : string -> io_fault.
Variable decode : list Byte.byte -> result PIL.native.
Variable lanczos : PIL.image -> nat -> nat -> option (nat -> nat -> PIL.pixel).
Variable encode_png : PIL.image -> list Byte.byte.
Variable stdout_refuses : string -> option exn.

Local Abbreviation print' := (print stdout_refuses).
Local Abbreviation print_error' := (print_error stdout_refuses).
Local Abbreviation Image_open' := (Image_open fault decode).
Local Abbreviation Image_save' := (Image_save fault encode_png).
Local Abbreviation try_body_with' :=
  (try_body_with fault decode lanczos encode_png stdout_refuses).
Local Abbreviation try_body' := (try_body fault decode lanczos encode_png stdout_refuses).
Local Abbreviation loop_body' := (loop_body fault decode lanczos encode_png stdout_refuses).
Local Abbreviation process' :=
  (process_booster_images fault decode lanczos encode_png stdout_refuses).
Local Abbreviation save_outcome' := (save_outcome encode_png).
Local Abbreviation body_outcome' :=
  (body_outcome fault decode lanczos encode_png stdout_refuses).

(** *** print *)

Lemma print_returns line w :
  print_error' line = None →
  print' line w = (Ok tt, World (disk w) (stdout w ++ [line])).
Proof. intros H. unfold print. rewrite H. reflexivity. Qed.

Lemma print_raises line w e :
  print_error' line = Some e → print' line w = (Raise e, w).
Proof. intros H. unfold print. rewrite H. reflexivity. Qed.

(** A print appends its line, or raises and leaves the world as it was. *)
Lemma print_spec line w :
  (print_error' line = None
   ∧ print' line w = (Ok tt, World (disk w) (stdout w ++ [line])))
  ∨ (∃ e, print_error' line = Some e ∧ print' line w = (Raise e, w)).
Proof.
  unfold print. destruct (print_error' line) as [e|]; [right; eauto | left; auto].
Qed.

Lemma print_Ok line w w1 :
  print' line w = (Ok tt, w1) →
  print_error' line = None ∧ w1 = World (disk w) (stdout w ++ [line]).
Proof.
  destruct (print_spec line w) as [[H ->] | (e & _ & ->)]; [|discriminate].
  intros [= <-]. split; [assumption | reflexivity].
Qed.

Lemma print_disk line w : disk (snd (print' line w)) = disk w.
Proof. destruct (print_spec line w) as [[_ ->] | (e & _ & ->)]; reflexivity. Qed.

Lemma print_ascii line : Str.isascii line = true → print_error' line = None.
Proof. intros H. unfold print_error. rewrite H. reflexivity. Qed.

Lemma read_file_world path w : snd (read_file fault path w) = w.
Proof.
  unfold read_file.
  destruct (disk w !! path) as [[data|names]|]; try reflexivity.
  destruct (fault path); reflexivity.
Qed.

(** Opening an image only reads. *)
Lemma Image_open_world path w : snd (Image_open' path w) = w.
Proof.
  unfold Image_open, mbind, M_bind.
  pose proof (read_file_world path w) as H.
  destruct (read_file fault path w) as [[data|e] w1]; cbn in H; subst w1; reflexivity.
Qed.

Lemma Image_open_Ok path w native w1 :
  Image_open' path w = (Ok native, w1) →
  w1 = w ∧ ∃ data, disk w !! path = Some (File data) ∧ decode data = Ok native.
Proof.
  intros H. pose proof (Image_open_world path w) as Hw. rewrite H in Hw. cbn in Hw.
  split; [assumption|]. revert H.
  unfold Image_open, mbind, M_bind, read_file, lift.
  destruct (disk w !! path) as [[data|names]|]; try discriminate.
  destruct (fault path); try discriminate;
    intros [= Hd _]; exists data; split; (reflexivity || assumption).
Qed.

(** The body of [try:], stage by stage. *)
Lemma try_body_with_eq divide filename filepath w :
  try_body_with' divide filename filepath w =
    match Image_open' filepath w with
    | (Raise e, w1) => (Raise e, w1)
    | (Ok native, w1) =>
        match autocrop (PIL.convert_RGBA native) with
        | Raise e => (Raise e, w1)
        | Ok cropped_img =>
            let width := Z.of_nat (PIL.xsize cropped_img) in
            let height := Z.of_nat (PIL.ysize cropped_img) in
            if height =? 0 then print' (skipped_line filename) w1
            else
              match new_size_with divide width height with
              | Raise e => (Raise e, w1)
              | Ok (new_width, new_height) =>
                  match PIL.resize lanczos cropped_img (new_width, new_height) with
                  | Raise e => (Raise e, w1)
                  | Ok resized_img =>
                      match Image_save' resized_img filepath w1 with
                      | (Raise e, w2) => (Raise e, w2)
                      | (Ok _, w2) =>
                          print' (processed_line filename new_width new_height) w2
                      end
                  end
              end
        end
    end.
Proof.
  unfold try_body_with. unfold mbind at 1. unfold M_bind at 1.
  destruct (Image_open' filepath w) as [[native|e] w1]; [|reflexivity].
  unfold mbind at 1. unfold M_bind at 1. unfold lift at 1.
  destruct (autocrop (PIL.convert_RGBA native)) as [c|e]; [|reflexivity].
  unfold PIL.size. cbv zeta.
  destruct (Z.of_nat (PIL.ysize c) =? 0); [reflexivity|].
  unfold mbind at 1. unfold M_bind at 1. unfold lift at 1.
  destruct (new_size_with _ _ _) as [[nw nh]|e]; [|reflexivity].
  unfold mbind at 1. unfold M_bind at 1. unfold lift at 1.
  destruct (PIL.resize _ _ _) as [r|e]; [|reflexivity].
  unfold mbind at 1. unfold M_bind at 1.
  destruct (Image_save' r filepath w1) as [[[]|e] w2]; reflexivity.
Qed.

(** *** Image.save *)

Lemma open_for_write_spec path w :
  (open_for_write fault path w = (Ok tt, World (<[path := File []]> (disk w)) (stdout w)))
  ∨ (∃ e, open_for_write fault path w = (Raise e, w)).
Proof.
  unfold open_for_write.
  destruct (disk w !! path) as [[data|names]|]; [|right; eauto|];
    destruct (fault path); (left; reflexivity) || (right; eauto).
Qed.

Lemma write_all_spec path data w :
  (write_all fault path data w
     = (Ok tt, World (<[path := File data]> (disk w)) (stdout w)))
  ∨ (∃ room, fault path = DiskFull room ∧ (room < length data)%nat
       ∧ write_all fault path data w
         = (Raise NoSpaceError,
            World (<[path := File (take room data)]> (disk w)) (stdout w))).
Proof.
  unfold write_all. destruct (fault path) as [| | |room]; try (left; reflexivity).
  destruct (Nat.ltb_spec room (length data)); [right; eauto | left; reflexivity].
Qed.

Lemma Image_save_outcome im path w :
  save_outcome' im path w (Image_save' im path w).
Proof.
  unfold Image_save.
  destruct (EXTENSION _) as [fmt|] eqn:Hext; [|apply save_refused].
  unfold mbind at 1. unfold M_bind at 1. unfold path_exists at 1.
  unfold mbind at 1. unfold M_bind at 1.
  destruct (open_for_write_spec path w) as [-> | (e & ->)]; [|apply save_refused].
  assert (Hfail : ∀ e data,
    save_outcome' im path w
      (((if negb (bool_decide (is_Some (disk w !! path)))
         then os_remove path else mret ()) ≫= λ _ : (), lift (Raise e))
         (World (<[path := File data]> (disk w)) (stdout w)))).
  { intros e data. unfold mbind, M_bind, lift, os_remove, mret, M_ret.
    destruct (bool_decide_reflect (is_Some (disk w !! path))) as [Hs|Hn];
      cbn [negb disk stdout].
    - apply save_failed.
    - rewrite delete_insert_eq. apply save_failed_removed.
      destruct (disk w !! path) eqn:E; [exfalso; apply Hn; eauto | reflexivity]. }
  unfold try_except.
  destruct fmt; unfold save_handler.
  - destruct (write_all_spec path (encode_png im)
                (World (<[path := File []]> (disk w)) (stdout w)))
      as [-> | (room & _ & _ & ->)]; cbn [snd stdout disk].
    + rewrite insert_insert_eq. apply save_written. assumption.
    + rewrite insert_insert_eq. apply Hfail.
  - unfold lift at 1. apply Hfail.
Qed.

(** Saving writes at [path] and nowhere else, and prints nothing. *)
Lemma Image_save_frame im path w :
  stdout (snd (Image_save' im path w)) = stdout w
  ∧ ∀ q, q ≠ path → disk (snd (Image_save' im path w)) !! q = disk w !! q.
Proof.
  destruct (Image_save_outcome im path w); cbn [snd stdout disk];
    (split; [reflexivity|]); intros q Hq;
    rewrite ?lookup_delete_ne, ?lookup_insert_ne by congruence; reflexivity.
Qed.

(** A save that returns has written the PNG encoding of the image. *)
Lemma Image_save_Ok im path w w1 :
  Image_save' im path w = (Ok tt, w1) →
  EXTENSION (Str.lower (OsPath.splitext_ext path)) = Some PNG
  ∧ w1 = World (<[path := File (encode_png im)]> (disk w)) (stdout w).
Proof.
  intros H. pose proof (Image_save_outcome im path w) as Ho. rewrite H in Ho.
  inversion Ho; subst. split; [assumption | reflexivity].
Qed.

(** A path with a JPEG extension is never saved: the writer refuses the
    RGBA image, after the file has been opened for writing. *)
Lemma Image_save_JPEG im path w :
  EXTENSION (Str.lower (OsPath.splitext_ext path)) = Some JPEG →
  ∃ e w1, Image_save' im path w = (Raise e, w1).
Proof.
  intros Hext.
  destruct (Image_save' im path w) as [[[]|e] w1] eqn:H; [|eauto].
  apply Image_save_Ok in H. destruct H as [H _]. congruence.
Qed.

(** *** The new size *)

Lemma new_size_Ok width height new_width new_height :
  height ≠ 0 →
  new_size width height = Ok (new_width, new_height) →
  ∃ t, Float64.scaled TARGET_HEIGHT width height = Some t
       ∧ new_width = Z.max 1 t ∧ new_height = TARGET_HEIGHT.
Proof.
  intros Hh. unfold new_size, new_size_with, truediv, Float64.scaled.
  destruct (Z.eqb_spec height 0); [contradiction|].
  unfold mbind, result_bind, int_mul_float, int_of_float.
  destruct (Float64.of_int TARGET_HEIGHT) as [a|]; [|discriminate].
  destruct (Float64.of_int height) as [b|]; [|discriminate].
  destruct (Float64.of_int width) as [c|]; [|discriminate].
  destruct (Float64.trunc _) as [t|]; [|destruct (Float64.mul _ _); discriminate].
  intros [= <- <-]. exists t. repeat split.
Qed.

Lemma resize_size im w h r :
  PIL.resize lanczos im (w, h) = Ok r → PIL.size r = (w, h) ∧ 0 < w ∧ 0 < h.
Proof.
  unfold PIL.resize, PIL.size.
  destruct (Z.leb_spec w 0), (Z.leb_spec h 0); try discriminate. cbn [orb].
  destruct (Z.eqb_spec w (Z.of_nat (PIL.xsize im))),
           (Z.eqb_spec h (Z.of_nat (PIL.ysize im)));
    cbn [andb]; try destruct (lanczos im (Z.to_nat w) (Z.to_nat h));
    try discriminate; intros [= <-]; cbn [PIL.xsize PIL.ysize];
    (split; [f_equal; lia | lia]).
Qed.

(** *** One file *)

Lemma loop_body_eq filename w :
  loop_body' filename w =
    match try_body' filename (OsPath.join BOOSTERS_DIR filename) w with
    | (Ok a, w1) => (Ok a, w1)
    | (Raise e, w1) => print' (error_line filename e) w1
    end.
Proof. reflexivity. Qed.

(** C1 (as amended).  When the body of [try:] returns for a file whose
    cropped buffer is w x h with h > 0, the image saved over the file is
    [TARGET_HEIGHT] high and [max(1, t)] wide, where t is
    [int(w * (TARGET_HEIGHT / h))] evaluated in binary64: the quotient is
    rounded, the product is rounded, the result is truncated.  For sizes
    with [TARGET_HEIGHT * w + h < 2^50], t is
    [floor(w * TARGET_HEIGHT / h)] whenever h does not divide
    [w * TARGET_HEIGHT], and that floor or one below it when it does.  The
    success line reports the same numbers. *)
Theorem saved_size_is_binary64_scaled filename w0 w1 native cropped_img :
  let filepath := OsPath.join BOOSTERS_DIR filename in
  let width := Z.of_nat (PIL.xsize cropped_img) in
  let height := Z.of_nat (PIL.ysize cropped_img) in
  Image_open' filepath w0 = (Ok native, w0) →
  autocrop (PIL.convert_RGBA native) = Ok cropped_img →
  0 < height →
  try_body' filename filepath w0 = (Ok tt, w1) →
  ∃ t resized_img,
    Float64.scaled TARGET_HEIGHT width height = Some t
    ∧ (TARGET_HEIGHT * width + height < 2 ^ 50 →
       TARGET_HEIGHT * width / height - 1 <= t <= TARGET_HEIGHT * width / height
       ∧ ((TARGET_HEIGHT * width) mod height ≠ 0 →
          t = TARGET_HEIGHT * width / height))
    ∧ PIL.size resized_img = (Z.max 1 t, TARGET_HEIGHT)
    ∧ disk w1 !! filepath = Some (File (encode_png resized_img))
    ∧ stdout w1 = stdout w0 ++ [processed_line filename (Z.max 1 t) TARGET_HEIGHT]
    ∧ loop_body' filename w0 = (Ok tt, w1).
Proof.
  intros filepath width height Hopen Hcrop Hh Hrun.
  assert (Hloop : loop_body' filename w0 = (Ok tt, w1)).
  { rewrite loop_body_eq. fold filepath. rewrite Hrun. reflexivity. }
  unfold try_body in Hrun. rewrite try_body_with_eq, Hopen, Hcrop in Hrun.
  cbv zeta in Hrun. fold width height in Hrun.
  destruct (Z.eqb_spec height 0) as [E|Hne]; [lia|].
  destruct (new_size_with truediv width height) as [[nw nh]|e] eqn:Hsz; [|discriminate].
  apply new_size_Ok in Hsz; [|assumption]. destruct Hsz as (t & Ht & -> & ->).
  destruct (PIL.resize lanczos cropped_img _) as [r|e] eqn:Hr; [|discriminate].
  apply resize_size in Hr. destruct Hr as (Hr & _ & _).
  destruct (Image_save' r filepath w0) as [[[]|e] w2] eqn:Hsave; [|discriminate].
  apply Image_save_Ok in Hsave. destruct Hsave as (_ & ->).
  apply print_Ok in Hrun. destruct Hrun as (_ & ->). cbn [disk stdout].
  exists t, r. split; [assumption|]. split.
  { intros Hsmall.
    assert (Ha : 0 < TARGET_HEIGHT < 2 ^ 50) by (split; reflexivity).
    assert (Hw : 0 <= width) by (unfold width; lia).
    destruct (Float64Facts.scaled_near_floor TARGET_HEIGHT width height Ha Hw Hh Hsmall)
      as (t' & Ht' & Hfloor).
    rewrite Ht in Ht'. injection Ht' as <-. exact Hfloor. }
  repeat split; try assumption.
  apply lookup_insert_eq.
Qed.

Lemma try_body_outcome filename filepath w :
  body_outcome' filename filepath w (try_body' filename filepath w).
Proof.
  unfold try_body. rewrite try_body_with_eq.
  pose proof (Image_open_world filepath w) as Hw.
  destruct (Image_open' filepath w) as [[native|e] w1] eqn:Hopen;
    cbn in Hw; subst w1; [|apply body_open_raised; assumption].
  destruct (autocrop (PIL.convert_RGBA native)) as [c|e] eqn:Hcrop;
    [|eapply body_crop_raised; eassumption].
  cbv zeta.
  destruct (Z.eqb_spec (Z.of_nat (PIL.ysize c)) 0) as [E|Hne].
  { eapply body_skipped; try eassumption. lia. }
  assert (PIL.ysize c ≠ 0%nat) by lia.
  fold new_size.
  destruct (new_size _ _) as [[nw nh]|e] eqn:Hsz;
    [|eapply body_size_raised; eassumption].
  destruct (PIL.resize lanczos c (nw, nh)) as [r|e] eqn:Hr;
    [|eapply body_resize_raised; eassumption].
  destruct (Image_save' r filepath w) as [[[]|e] w2] eqn:Hsave.
  - eapply body_saved; eassumption.
  - eapply body_save_raised; eassumption.
Qed.

(** *** The new size, and the resize that takes it *)

Lemma new_size_of_scaled width height t :
  height ≠ 0 → Float64.scaled TARGET_HEIGHT width height = Some t →
  new_size width height = Ok (Z.max 1 t, TARGET_HEIGHT).
Proof.
  intros Hh. unfold new_size, new_size_with, truediv, Float64.scaled.
  destruct (Z.eqb_spec height 0); [contradiction|].
  unfold mbind, result_bind, int_mul_float, int_of_float.
  destruct (Float64.of_int TARGET_HEIGHT) as [a|]; [|discriminate].
  destruct (Float64.of_int height) as [b|]; [|discriminate].
  destruct (Float64.of_int width) as [c|]; [|discriminate].
  intros ->. reflexivity.
Qed.




(** *** Saving over an existing file *)






(** *** One file, from what is on disk *)





(** The handler prints and writes nothing to disk. *)
Lemma loop_body_disk_try filename w :
  disk (snd (loop_body' filename w))
  = disk (snd (try_body' filename (OsPath.join BOOSTERS_DIR filename) w)).
Proof.
  rewrite loop_body_eq.
  destruct (try_body' filename (OsPath.join BOOSTERS_DIR filename) w) as [[a|e] w1];
    [reflexivity | apply print_disk].
Qed.

(** C6.  One iteration touches the disk at [filepath] only, and only in the
    save step: either the disk is left as it was, or every step before the
    save returned normally (open, crop, a height other than 0, the new
    size, the resize) and the disk is what [save] made of it.  So an
    error raised before the save, or the zero-height skip, leaves every
    file as it was. *)
Theorem disk_written_only_by_save filename w0 :
  let filepath := OsPath.join BOOSTERS_DIR filename in
  let w1 := snd (loop_body' filename w0) in
  (∀ q, q ≠ filepath → disk w1 !! q = disk w0 !! q)
  ∧ (disk w1 = disk w0
     ∨ ∃ native cropped_img new_width new_height resized_img,
         Image_open' filepath w0 = (Ok native, w0)
         ∧ autocrop (PIL.convert_RGBA native) = Ok cropped_img
         ∧ PIL.ysize cropped_img ≠ 0%nat
         ∧ new_size (Z.of_nat (PIL.xsize cropped_img))
                    (Z.of_nat (PIL.ysize cropped_img)) = Ok (new_width, new_height)
         ∧ PIL.resize lanczos cropped_img (new_width, new_height) = Ok resized_img
         ∧ disk w1 = disk (snd (Image_save' resized_img filepath w0))).
Proof.
  intros filepath w1. subst w1. rewrite loop_body_disk_try. fold filepath.
  destruct (try_body_outcome filename filepath w0)
    as [e He | native e Ho Hc | native c Ho Hc Hh | native c e Ho Hc Hh Hs
        | native c nw nh e Ho Hc Hh Hs Hr | native c nw nh r e w2 Ho Hc Hh Hs Hr Hsv
        | native c nw nh r w2 Ho Hc Hh Hs Hr Hsv];
    rewrite ?print_disk; cbn [snd];
    try (split; [reflexivity | left; reflexivity]).
  - pose proof (Image_save_frame r filepath w0) as [_ Hfr]. rewrite Hsv in Hfr.
    split; [exact Hfr|]. right. exists native, c, nw, nh, r.
    rewrite Hsv. repeat split; assumption.
  - pose proof (Image_save_frame r filepath w0) as [_ Hfr]. rewrite Hsv in Hfr.
    split; [exact Hfr|]. right. exists native, c, nw, nh, r.
    rewrite Hsv. repeat split; assumption.
Qed.

(** *** The batch *)

(** What the body of [try:] leaves behind: one line printed, the skip
    line or the success line of a PNG, or an exception and nothing
    printed. *)
Lemma try_body_result filename filepath w :
  (∃ line d,
     try_body' filename filepath w = (Ok tt, World d (stdout w ++ [line]))
     ∧ (line = skipped_line filename
        ∨ ∃ nw nh, line = processed_line filename nw nh
                   ∧ EXTENSION (Str.lower (OsPath.splitext_ext filepath)) = Some PNG))
  ∨ (∃ e d, try_body' filename filepath w = (Raise e, World d (stdout w))).
Proof.
  assert (Hraise : ∀ e, ∃ e' d, (Raise e, w) = (@Raise unit e', World d (stdout w))).
  { intros e. exists e, (disk w). destruct w; reflexivity. }
  destruct (try_body_outcome filename filepath w)
    as [e He | native e Ho Hc | native c Ho Hc Hh | native c e Ho Hc Hh Hs
        | native c nw nh e Ho Hc Hh Hs Hr | native c nw nh r e w2 Ho Hc Hh Hs Hr Hsv
        | native c nw nh r w2 Ho Hc Hh Hs Hr Hsv];
    try (right; apply Hraise).
  - destruct (print_spec (skipped_line filename) w) as [[_ ->] | (e & _ & ->)].
    + left. eexists _, _. split; [reflexivity | left; reflexivity].
    + right. apply Hraise.
  - pose proof (Image_save_frame r filepath w) as [Hout _].
    rewrite Hsv in Hout. cbn [snd] in Hout.
    right. exists e, (disk w2). rewrite <- Hout. destruct w2; reflexivity.
  - pose proof (Image_save_frame r filepath w) as [Hout _].
    rewrite Hsv in Hout. cbn [snd] in Hout.
    apply Image_save_Ok in Hsv. destruct Hsv as [Hpng _].
    destruct (print_spec (processed_line filename nw nh) w2) as [[_ ->] | (e & _ & ->)].
    + left. eexists _, _. rewrite Hout. split; [reflexivity|].
      right. exists nw, nh. split; [reflexivity | assumption].
    + right. exists e, (disk w2). rewrite <- Hout. destruct w2; reflexivity.
Qed.



Lemma for_each_cons_Ok filename rest w w1 :
  loop_body' filename w = (Ok tt, w1) →
  for_each (filename :: rest) loop_body' w = for_each rest loop_body' w1.
Proof.
  intros H. cbn [for_each]. unfold mbind at 1. unfold M_bind at 1.
  rewrite H. reflexivity.
Qed.

Lemma for_each_cons_Raise filename rest w e w1 :
  loop_body' filename w = (Raise e, w1) →
  for_each (filename :: rest) loop_body' w = (Raise e, w1).
Proof.
  intros H. cbn [for_each]. unfold mbind at 1. unfold M_bind at 1.
  rewrite H. reflexivity.
Qed.




Lemma process_eq w :
  process' w =
    match os_listdir fault BOOSTERS_DIR w with
    | (Raise e, w1) => (Raise e, w1)
    | (Ok names, w1) =>
        match List.filter is_image_file names with
        | [] => (Ok tt, World (disk w1) (stdout w1 ++ [no_images_line]))
        | f :: fs =>
            match for_each (f :: fs) loop_body'
                    (World (disk w1) (stdout w1 ++ [start_line])) with
            | (Ok _, w2) => (Ok tt, World (disk w2) (stdout w2 ++ [complete_line]))
            | (Raise e, w2) => (Raise e, w2)
            end
        end
    end.
Proof.
  unfold process_booster_images, list_image_files.
  unfold mbind at 1. unfold M_bind at 1.
  unfold mbind at 1. unfold M_bind at 1.
  destruct (os_listdir fault BOOSTERS_DIR w) as [[names|e] w1]; [|reflexivity].
  unfold mret at 1. unfold M_ret at 1.
  destruct (List.filter is_image_file names) as [|f fs]; [reflexivity|].
  unfold mbind at 1. unfold M_bind at 1.
  rewrite (print_returns start_line) by reflexivity.
  unfold mbind at 1. unfold M_bind at 1.
  destruct (for_each _ _ _) as [[[]|e] w2]; reflexivity.
Qed.


(** C8.  When no listed name passes the filter, the run prints the "No
    image files found" line, returns normally and leaves the disk as it
    was. *)
Theorem no_images_found w0 names :
  os_listdir fault BOOSTERS_DIR w0 = (Ok names, w0) →
  List.filter is_image_file names = [] →
  process' w0
  = (Ok tt, World (disk w0)
              (stdout w0 ++ ["No image files found in the boosters directory."])).
Proof.
  intros Hls Hnone. rewrite process_eq, Hls, Hnone. reflexivity.
Qed.

(** *** The selection *)

Lemma endswith_iff s p : Str.endswith s p = true ↔ ∃ stem, s = stem +:+ p.
Proof.
  split.
  - induction s as [|c s IH]; cbn [Str.endswith]; rewrite orb_true_iff.
    + intros [H|H]; [|discriminate]. apply String.eqb_eq in H. subst p.
      exists "". reflexivity.
    + intros [H|H].
      * apply String.eqb_eq in H. subst p. exists "". reflexivity.
      * destruct (IH H) as (stem & ->). exists (String c stem). reflexivity.
  - intros (stem & ->). induction stem as [|c stem IH].
    + change (Str.endswith p p = true). destruct p; cbn [Str.endswith];
        rewrite ?String.eqb_refl; reflexivity.
    + change (String c stem +:+ p) with (String c (stem +:+ p)).
      cbn [Str.endswith]. rewrite IH. apply orb_true_r.
Qed.

Lemma is_image_file_iff f :
  is_image_file f = true ↔
  ∃ stem suffix, In suffix [".png"; ".jpg"; ".jpeg"] ∧ Str.lower f = stem +:+ suffix.
Proof.
  unfold is_image_file, Str.endswith_any. rewrite existsb_exists. split.
  - intros (suffix & Hin & He). apply endswith_iff in He. destruct He as (stem & He).
    exists stem, suffix. split; assumption.
  - intros (stem & suffix & Hin & He). exists suffix. split; [assumption|].
    apply endswith_iff. exists stem. assumption.
Qed.

(** C9 (as amended).  The selection is the list of names [os.listdir]
    returns, in that order, kept when the lowered name ends with ".png",
    ".jpg" or ".jpeg".  Only the name is looked at: nothing asks whether
    the entry is a file or a directory. *)
Theorem images_selected_by_name_suffix w0 names :
  os_listdir fault BOOSTERS_DIR w0 = (Ok names, w0) →
  list_image_files fault w0 = (Ok (List.filter is_image_file names), w0)
  ∧ ∀ f, In f (List.filter is_image_file names) ↔
         In f names
         ∧ ∃ stem suffix, In suffix [".png"; ".jpg"; ".jpeg"]
                          ∧ Str.lower f = stem +:+ suffix.
Proof.
  intros Hls. split.
  - unfold list_image_files, mbind, M_bind. rewrite Hls. reflexivity.
  - intros f. rewrite filter_In, is_image_file_iff. reflexivity.
Qed.

(** *** The extension [save] sees *)

Lemma lower_ascii_dot c : Str.lower_ascii c = "."%char → c = "."%char.
Proof.
  destruct c as [[] [] [] [] [] [] [] []]; vm_compute; intros H; try discriminate; reflexivity.
Qed.

(** A character that lowers to a letter is neither a dot nor a slash. *)
Lemma lower_ascii_letter c :
  In (Str.lower_ascii c) ["p"; "n"; "g"; "j"; "e"]%char →
  c ≠ "."%char ∧ c ≠ "/"%char.
Proof.
  destruct c as [[] [] [] [] [] [] [] []]; vm_compute; intros H; split; intros E;
    try discriminate; repeat (destruct H as [H|H]; [discriminate|]); contradiction.
Qed.

Lemma append_nil s : "" +:+ s = s.
Proof. reflexivity. Qed.

Lemma append_cons c a s : String c a +:+ s = String c (a +:+ s).
Proof. reflexivity. Qed.

Lemma length_append a s : String.length (a +:+ s) = (String.length a + String.length s)%nat.
Proof.
  induction a as [|c a IH]; [reflexivity|].
  rewrite append_cons. cbn [String.length]. rewrite IH. reflexivity.
Qed.

Lemma rfind_from_app c s1 : ∀ s2 i last,
  Str.rfind_from c (s1 +:+ s2) i last
  = Str.rfind_from c s2 (i + Z.of_nat (String.length s1)) (Str.rfind_from c s1 i last).
Proof.
  induction s1 as [|a s1 IH]; intros s2 i last.
  - rewrite append_nil. cbn [String.length Str.rfind_from]. f_equal. lia.
  - rewrite append_cons. cbn [String.length Str.rfind_from]. rewrite IH.
    f_equal. lia.
Qed.

Lemma rfind_from_none c s : ∀ i last,
  Str.contains c s = false → Str.rfind_from c s i last = last.
Proof.
  induction s as [|a s IH]; intros i last H; [reflexivity|].
  cbn [Str.contains] in H. apply orb_false_iff in H. destruct H as [Ha Hs].
  cbn [Str.rfind_from]. rewrite Ha. apply IH. assumption.
Qed.

Lemma rfind_from_range c s : ∀ i last,
  -1 <= last < i →
  -1 <= Str.rfind_from c s i last < i + Z.of_nat (String.length s).
Proof.
  induction s as [|a s IH]; intros i last H.
  - cbn [Str.rfind_from String.length]. lia.
  - cbn [Str.rfind_from String.length].
    specialize (IH (i + 1) (if Ascii.eqb a c then i else last)).
    destruct (Ascii.eqb a c); lia.
Qed.

Lemma substring_all s : String.substring 0 (String.length s) s = s.
Proof.
  induction s as [|a s IH]; [reflexivity|].
  cbn [String.length String.substring]. rewrite IH. reflexivity.
Qed.

Lemma slice_from_append pre s :
  Str.slice_from (pre +:+ s) (Z.of_nat (String.length pre)) = s.
Proof.
  unfold Str.slice_from. rewrite Nat2Z.id, length_append.
  replace (String.length pre + String.length s - String.length pre)%nat
    with (String.length s) by lia.
  induction pre as [|a pre IH].
  - rewrite append_nil. apply substring_all.
  - rewrite append_cons. cbn [String.length String.substring]. exact IH.
Qed.

Lemma lower_append_inv stem : ∀ f suf,
  Str.lower f = stem +:+ suf →
  ∃ stem' suf', f = stem' +:+ suf' ∧ Str.lower stem' = stem ∧ Str.lower suf' = suf.
Proof.
  induction stem as [|a stem IH]; intros f suf H.
  - exists "", f. rewrite append_nil in H. repeat split; assumption.
  - rewrite append_cons in H. destruct f as [|c f]; [discriminate|].
    cbn [Str.lower] in H. injection H as Hc Hf.
    destruct (IH f suf Hf) as (stem' & suf' & -> & <- & <-).
    exists (String c stem'), suf'. rewrite append_cons.
    cbn [Str.lower]. rewrite Hc. repeat split.
Qed.

Lemma append_assoc a b c : (a +:+ b) +:+ c = a +:+ (b +:+ c).
Proof.
  induction a as [|x a IH]; [reflexivity|].
  rewrite !append_cons, IH. reflexivity.
Qed.

(** [splitext] on a path that ends with a dot and then neither dot nor
    slash: the extension is that ending, unless only dots precede it in
    the last component. *)
Lemma splitext_ext_suffix pre rest :
  Str.contains "." rest = false → Str.contains "/" rest = false →
  OsPath.splitext_ext (pre +:+ String "." rest) = ""
  ∨ OsPath.splitext_ext (pre +:+ String "." rest) = String "." rest.
Proof.
  intros Hdot Hsep. unfold OsPath.splitext_ext, Str.rfind.
  assert (Edot : Str.rfind_from "." (pre +:+ String "." rest) 0 (-1)
                 = Z.of_nat (String.length pre)).
  { rewrite rfind_from_app. cbn [Str.rfind_from]. cbn [Ascii.eqb Bool.eqb].
    apply rfind_from_none. assumption. }
  rewrite Edot.
  destruct ((Z.of_nat (String.length pre) >? _) && _).
  - right. apply slice_from_append.
  - left. reflexivity.
Qed.

Lemma join_BOOSTERS_DIR f :
  OsPath.join BOOSTERS_DIR f = f ∨ OsPath.join BOOSTERS_DIR f = BOOSTERS_DIR +:+ f.
Proof.
  unfold OsPath.join. destruct (Str.startswith f "/"); [left|right]; reflexivity.
Qed.

Lemma contains_letters c1 rest (x : ascii) :
  (x = "." ∨ x = "/")%char → c1 ≠ "."%char ∧ c1 ≠ "/"%char →
  Str.contains x rest = false → Str.contains x (String c1 rest) = false.
Proof.
  intros Hx [H1 H2] Hr. cbn [Str.contains]. rewrite Hr, orb_false_r.
  apply Ascii.eqb_neq. destruct Hx as [-> | ->]; assumption.
Qed.

(** The extension [save] sees for a selected name: the suffix that
    selected it, in its own case, or nothing. *)
Lemma extension_of_selected f suffix :
  In suffix [".png"; ".jpg"; ".jpeg"] →
  Str.endswith (Str.lower f) suffix = true →
  let ext := Str.lower (OsPath.splitext_ext (OsPath.join BOOSTERS_DIR f)) in
  ext = "" ∨ ext = suffix.
Proof.
  intros Hin Hend. cbv zeta.
  apply endswith_iff in Hend. destruct Hend as (stem & Hlow).
  destruct (lower_append_inv _ _ _ Hlow) as (stem' & suf' & -> & _ & Hsuf).
  assert (Hshape : ∃ rest, suf' = String "." rest
                           ∧ Str.contains "." rest = false ∧ Str.contains "/" rest = false).
  { destruct Hin as [<- | [<- | [<- | []]]];
      repeat (destruct suf' as [|? suf']; [discriminate|]);
      destruct suf'; try discriminate;
      cbn [Str.lower] in Hsuf; injection Hsuf as E0 E1 E2 E3;
      try (match type of E3 with String _ _ = _ => injection E3 as E3 E4 end);
      apply lower_ascii_dot in E0; subst;
      (eexists; split; [reflexivity|]);
      split;
      repeat (apply contains_letters;
              [auto | apply lower_ascii_letter;
                      match goal with H : Str.lower_ascii ?c = _ |- In (Str.lower_ascii ?c) _ =>
                        rewrite H; cbn; tauto end |]);
      reflexivity. }
  destruct Hshape as (rest & -> & Hd & Hs).
  assert (Hext : ∀ pre, Str.lower (OsPath.splitext_ext (pre +:+ String "." rest)) = ""
                        ∨ Str.lower (OsPath.splitext_ext (pre +:+ String "." rest)) = suffix).
  { intros pre. destruct (splitext_ext_suffix pre rest Hd Hs) as [-> | ->];
      [left; reflexivity | right; assumption]. }
  destruct (join_BOOSTERS_DIR (stem' +:+ String "." rest)) as [-> | ->].
  - apply Hext.
  - rewrite <- append_assoc. apply Hext.
Qed.

(** Of the table [EXTENSION], [save] only ever looks up the empty
    extension and the three the filter lets through. *)
Lemma extension_of_image_file f :
  is_image_file f = true →
  let ext := Str.lower (OsPath.splitext_ext (OsPath.join BOOSTERS_DIR f)) in
  ext = "" ∨ In ext [".png"; ".jpg"; ".jpeg"].
Proof.
  intros Hsel. unfold is_image_file, Str.endswith_any in Hsel.
  apply existsb_exists in Hsel. destruct Hsel as (suffix & Hin & Hend).
  destruct (extension_of_selected f suffix Hin Hend) as [H | H];
    cbv zeta; rewrite H; [left; reflexivity | right; exact Hin].
Qed.

(** X10: lines 18-52.  A selected name that ends in .jpg or .jpeg is never
    processed, whatever the file holds and whatever the system does: its
    iteration prints the skip line or an error line and returns, or the
    print of the handler raises and nothing is printed.  The success line
    is never printed. *)
Lemma jpeg_never_processed filename w :
  Str.endswith_any (Str.lower filename) [".jpg"; ".jpeg"] = true →
  (∃ line d,
     loop_body' filename w = (Ok tt, World d (stdout w ++ [line]))
     ∧ (line = skipped_line filename ∨ ∃ e, line = error_line filename e))
  ∨ (∃ e cause d,
       loop_body' filename w = (Raise e, World d (stdout w))
       ∧ print_error' (error_line filename cause) = Some e).
Proof.
  intros Hsel.
  assert (Hext : EXTENSION (Str.lower (OsPath.splitext_ext
                   (OsPath.join BOOSTERS_DIR filename))) ≠ Some PNG).
  { unfold Str.endswith_any in Hsel. apply existsb_exists in Hsel.
    destruct Hsel as (suffix & Hin & Hend).
    assert (Hin' : In suffix [".png"; ".jpg"; ".jpeg"]) by (right; exact Hin).
    destruct (extension_of_selected filename suffix Hin' Hend) as [-> | ->].
    - discriminate.
    - destruct Hin as [<- | [<- | []]]; discriminate. }
  rewrite loop_body_eq.
  destruct (try_body_result filename (OsPath.join BOOSTERS_DIR filename) w)
    as [(line & d & -> & Hline) | (e & d & ->)].
  - left. exists line, d. split; [reflexivity|].
    destruct Hline as [-> | (nw & nh & _ & Hpng)]; [left; reflexivity | contradiction].
  - destruct (print_spec (error_line filename e) (World d (stdout w)))
      as [[_ ->] | (e' & He' & ->)]; cbn [disk stdout].
    + left. eexists _, _. split; [reflexivity | right; eauto].
    + right. exists e', e, d. split; [reflexivity | assumption].
Qed.

(** *** The division *)

(** C10.  The scale factor is computed only past the zero-height guard, so
    with a height above 0: whatever a division by zero would do, the body
    of [try:] behaves the same, and the division the script performs
    never raises ZeroDivisionError. *)
Theorem division_by_zero_unreachable
    (on_zero : Z → Z → result Float64.float) filename filepath w :
  try_body_with' (λ a b, if b =? 0 then on_zero a b else truediv a b)
    filename filepath w
  = try_body' filename filepath w
  ∧ ∀ cropped_img : PIL.image,
      let height := snd (PIL.size cropped_img) in
      (height =? 0) = false →
      0 < height ∧ truediv TARGET_HEIGHT height ≠ Raise ZeroDivisionError.
Proof.
  split.
  - unfold try_body. rewrite !try_body_with_eq.
    destruct (Image_open' filepath w) as [[native|e] w1]; [|reflexivity].
    destruct (autocrop (PIL.convert_RGBA native)) as [c|e]; [|reflexivity].
    cbv zeta.
    destruct (Z.eqb_spec (Z.of_nat (PIL.ysize c)) 0) as [E|Hne]; [reflexivity|].
    unfold new_size_with.
    destruct (Z.eqb_spec (Z.of_nat (PIL.ysize c)) 0) as [E|_]; [contradiction|].
    reflexivity.
  - intros c height Hguard. apply Z.eqb_neq in Hguard.
    unfold height in *. cbn [snd PIL.size] in *.
    split; [lia|].
    unfold truediv.
    destruct (Z.eqb_spec (Z.of_nat (PIL.ysize c)) 0) as [E|_]; [contradiction|].
    destruct (Float64.of_int TARGET_HEIGHT), (Float64.of_int (Z.of_nat (PIL.ysize c)));
      discriminate.
Qed.

(** *** More on the new size and the resize *)


(** X6: lines 37-43.  When the height divides [TARGET_HEIGHT] nothing is
    lost to rounding: the width is multiplied by the whole factor. *)
Theorem new_size_exact_when_height_divides width height :
  0 <= width → 0 < height → TARGET_HEIGHT * width + height < 2 ^ 50 →
  TARGET_HEIGHT mod height = 0 →
  new_size width height
  = Ok (Z.max 1 (width * (TARGET_HEIGHT / height)), TARGET_HEIGHT).
Proof.
  intros Hw Hh Hsmall Hdiv.
  assert (Ha : 0 < TARGET_HEIGHT < 2 ^ 50) by (split; reflexivity).
  apply new_size_of_scaled; [lia|].
  apply Float64Exact.scaled_exact; assumption.
Qed.

(** X7: lines 37-45.  A buffer that is already [TARGET_HEIGHT] high and at
    least one pixel wide gets its own size as new size, and [resize]
    hands it back as it is: nothing is resampled. *)
Theorem target_height_image_not_resampled cropped_img :
  Z.of_nat (PIL.ysize cropped_img) = TARGET_HEIGHT →
  (0 < PIL.xsize cropped_img)%nat →
  TARGET_HEIGHT * Z.of_nat (PIL.xsize cropped_img) + TARGET_HEIGHT < 2 ^ 50 →
  new_size (Z.of_nat (PIL.xsize cropped_img)) (Z.of_nat (PIL.ysize cropped_img))
    = Ok (PIL.size cropped_img)
  ∧ PIL.resize lanczos cropped_img (PIL.size cropped_img) = Ok cropped_img.
Proof.
  intros Hh Hw Hsmall. split.
  - unfold PIL.size. rewrite Hh.
    assert (Ha : 0 < TARGET_HEIGHT < 2 ^ 50) by (split; reflexivity).
    rewrite (new_size_of_scaled _ _ (Z.of_nat (PIL.xsize cropped_img) * 1)).
    + do 2 f_equal. lia.
    + discriminate.
    + apply (Float64Exact.scaled_exact TARGET_HEIGHT _ TARGET_HEIGHT);
        try assumption; try lia; reflexivity.
  - unfold PIL.resize, PIL.size.
    destruct (Z.leb_spec (Z.of_nat (PIL.xsize cropped_img)) 0); [lia|].
    destruct (Z.leb_spec (Z.of_nat (PIL.ysize cropped_img)) 0);
      [unfold TARGET_HEIGHT in Hh; lia|].
    rewrite !Z.eqb_refl. reflexivity.
Qed.

(** *** One file, by its name *)



(** *** What leaves the function, and what the lines tell *)

Lemma os_listdir_world path w : snd (os_listdir fault path w) = w.
Proof.
  unfold os_listdir.
  destruct (disk w !! path) as [[data|names]|]; try reflexivity.
  destruct (fault path); reflexivity.
Qed.


(** *** What a run leaves on disk *)

(** Saving over an existing file leaves a file there. *)
Lemma Image_save_existing im path w data :
  disk w !! path = Some (File data) →
  snd (Image_save' im path w) = w
  ∨ ∃ data', disk (snd (Image_save' im path w)) = <[path := File data']> (disk w).
Proof.
  intros Hd. destruct (Image_save_outcome im path w); cbn [snd disk].
  - left. reflexivity.
  - right. eauto.
  - right. eauto.
  - congruence.
Qed.

Lemma kept_trans (d0 d1 d2 : gmap string node) q :
  (d1 !! q = d0 !! q
   ∨ ∃ a b, d0 !! q = Some (File a) ∧ d1 !! q = Some (File b)) →
  (d2 !! q = d1 !! q
   ∨ ∃ a b, d1 !! q = Some (File a) ∧ d2 !! q = Some (File b)) →
  d2 !! q = d0 !! q
  ∨ ∃ a b, d0 !! q = Some (File a) ∧ d2 !! q = Some (File b).
Proof.
  intros [H01 | (a & b & Ha & Hb)] [H12 | (a' & b' & Ha' & Hb')].
  - left. congruence.
  - right. exists a', b'. split; congruence.
  - right. exists a, b. split; congruence.
  - right. exists a, b'. split; assumption.
Qed.

Lemma loop_body_keeps filename w q :
  disk (snd (loop_body' filename w)) !! q = disk w !! q
  ∨ ∃ a b, disk w !! q = Some (File a)
           ∧ disk (snd (loop_body' filename w)) !! q = Some (File b).
Proof.
  rewrite loop_body_disk_try.
  set (filepath := OsPath.join BOOSTERS_DIR filename).
  assert (Hsave : ∀ native r w2 (res : result unit),
    Image_open' filepath w = (Ok native, w) →
    Image_save' r filepath w = (res, w2) →
    disk w2 !! q = disk w !! q
    ∨ ∃ a b, disk w !! q = Some (File a) ∧ disk w2 !! q = Some (File b)).
  { intros native r w2 res Ho Hsv.
    destruct (Image_open_Ok filepath w native w Ho) as (_ & data & Hd & _).
    destruct (Image_save_existing r filepath w data Hd) as [Hw | (data' & Hw)];
      rewrite Hsv in Hw; cbn [snd] in Hw.
    - left. rewrite Hw. reflexivity.
    - rewrite Hw. destruct (decide (q = filepath)) as [->|Hne].
      + right. exists data, data'. split; [assumption | apply lookup_insert_eq].
      + left. apply lookup_insert_ne. congruence. }
  destruct (try_body_outcome filename filepath w)
    as [e He | native e Ho Hc | native c Ho Hc Hh | native c e Ho Hc Hh Hs
        | native c nw nh e Ho Hc Hh Hs Hr | native c nw nh r e w2 Ho Hc Hh Hs Hr Hsv
        | native c nw nh r w2 Ho Hc Hh Hs Hr Hsv];
    rewrite ?print_disk; cbn [snd]; try (left; reflexivity).
  - exact (Hsave native r w2 _ Ho Hsv).
  - exact (Hsave native r w2 _ Ho Hsv).
Qed.

Lemma for_each_keeps files : ∀ w q,
  disk (snd (for_each files loop_body' w)) !! q = disk w !! q
  ∨ ∃ a b, disk w !! q = Some (File a)
           ∧ disk (snd (for_each files loop_body' w)) !! q = Some (File b).
Proof.
  induction files as [|filename rest IH]; intros w q; [left; reflexivity|].
  pose proof (loop_body_keeps filename w q) as Hstep.
  destruct (loop_body' filename w) as [[[]|e] w1] eqn:Hloop; cbn [snd] in Hstep.
  - rewrite (for_each_cons_Ok _ _ _ _ Hloop).
    exact (kept_trans _ _ _ q Hstep (IH w1 q)).
  - rewrite (for_each_cons_Raise _ _ _ _ _ Hloop). exact Hstep.
Qed.

(** X11: lines 11-54.  A run creates no path and deletes none, and leaves
    every directory as it was: a path whose entry differs after the run
    held a regular file before it and holds a regular file after it,
    whether the run returns or raises.  (The only file a save ever opens
    for writing is one [Image.open] has just read, so it exists, and
    [save] removes only what it created.) *)
Theorem run_creates_and_deletes_nothing w q :
  let w1 :=
    snd (process_booster_images fault decode lanczos encode_png stdout_refuses w) in
  disk w1 !! q = disk w !! q
  ∨ ∃ data data', disk w !! q = Some (File data) ∧ disk w1 !! q = Some (File data').
Proof.
  cbv zeta. rewrite process_eq.
  pose proof (os_listdir_world BOOSTERS_DIR w) as Hw.
  destruct (os_listdir fault BOOSTERS_DIR w) as [[names|e] w0];
    cbn [snd] in Hw; subst w0; [|left; reflexivity].
  destruct (List.filter is_image_file names) as [|f0 fs]; [left; reflexivity|].
  pose proof (for_each_keeps (f0 :: fs) (World (disk w) (stdout w ++ [start_line])) q)
    as Hkeep.
  destruct (for_each _ _ _) as [[[]|e] w2]; exact Hkeep.
Qed.

(** X13: lines 18-52.  The success line is printed only after the save has
    returned: when an iteration ends with a line that starts with
    "  Processed ", the file has just been replaced by the PNG encoding of
    an image [TARGET_HEIGHT] high whose width is the one the line gives. *)
Theorem processed_line_means_saved filename w line :
  let filepath := OsPath.join BOOSTERS_DIR filename in
  let w1 := snd (loop_body' filename w) in
  stdout w1 = stdout w ++ [line] →
  Str.startswith line "  Processed " = true →
  ∃ new_width resized_img,
    line = processed_line filename new_width TARGET_HEIGHT
    ∧ 1 <= new_width
    ∧ PIL.size resized_img = (new_width, TARGET_HEIGHT)
    ∧ disk w1 = <[filepath := File (encode_png resized_img)]> (disk w).
Proof.
  intros filepath w1 Hout Hpre. subst w1.
  assert (Hnot : ∀ (l : string) (d : gmap string node) (o : result unit),
            Str.startswith l "  Processed " = false →
            stdout (snd (o, World d (stdout w ++ [l]))) ≠ stdout w ++ [line]).
  { intros l d o Hl E. cbn [snd stdout] in E. apply app_inv_head in E.
    injection E as ->. congruence. }
  assert (Hnone : ∀ (d : gmap string node) (o : result unit),
            stdout (snd (o, World d (stdout w))) ≠ stdout w ++ [line]).
  { intros d o E. cbn [snd stdout] in E.
    apply (f_equal (@length string)) in E. rewrite length_app in E.
    cbn [length] in E. lia. }
  assert (Hhandler : ∀ e d, stdout (snd (print' (error_line filename e)
                                           (World d (stdout w))))
                            ≠ stdout w ++ [line]).
  { intros e d.
    destruct (print_spec (error_line filename e) (World d (stdout w)))
      as [[_ ->] | (e' & _ & ->)]; cbn [disk].
    - apply Hnot. reflexivity.
    - apply Hnone. }
  rewrite loop_body_eq in Hout |- *. fold filepath in Hout |- *.
  destruct (try_body_outcome filename filepath w)
    as [e He | native e Ho Hc | native c Ho Hc Hh | native c e Ho Hc Hh Hs
        | native c nw nh e Ho Hc Hh Hs Hr | native c nw nh r e w2 Ho Hc Hh Hs Hr Hsv
        | native c nw nh r w2 Ho Hc Hh Hs Hr Hsv].
  1,2,4,5: exfalso; destruct w as [d0 out0]; exact (Hhandler _ _ Hout).
  - exfalso.
    destruct (print_spec (skipped_line filename) w) as [[_ E] | (e & _ & E)];
      rewrite E in Hout.
    + exact (Hnot (skipped_line filename) _ _ eq_refl Hout).
    + destruct w as [d0 out0]. exact (Hhandler _ _ Hout).
  - exfalso. pose proof (Image_save_frame r filepath w) as [Hsame _].
    rewrite Hsv in Hsame. cbn [snd] in Hsame.
    destruct w2 as [d2 out2]. cbn [stdout] in Hsame. subst out2.
    exact (Hhandler _ _ Hout).
  - apply Image_save_Ok in Hsv. destruct Hsv as (_ & ->).
    destruct (print_spec (processed_line filename nw nh)
                (World (<[filepath:=File (encode_png r)]> (disk w)) (stdout w)))
      as [[_ E] | (e & _ & E)]; rewrite E in Hout |- *; cbn [disk stdout] in *.
    + cbn [snd stdout disk] in *. apply app_inv_head in Hout. injection Hout as <-.
      apply new_size_Ok in Hs; [|lia]. destruct Hs as (t & _ & -> & ->).
      apply resize_size in Hr. destruct Hr as (Hr & _ & _).
      exists (Z.max 1 t), r. repeat split; try assumption; lia.
    + exfalso. exact (Hhandler _ _ Hout).
Qed.

End Properties.

(* ===================================================================== *)
(** ** The script on concrete directories                                  *)
(* ===================================================================== *)

Lemma saved_size_is_binary64_scaled_witness :
  ∃ t resized_img,
    Float64.scaled TARGET_HEIGHT 21 7 = Some t
    ∧ PIL.size resized_img = (Z.max 1 t, TARGET_HEIGHT)
    ∧ disk (snd (Demo.run Demo.no_fault Runs.world_a)) !! Demo.in_dir "a.png"
      = Some (File (Demo.encode_png resized_img)).
Proof.
  destruct (saved_size_is_binary64_scaled
              Demo.no_fault Demo.decode Demo.lanczos Demo.encode_png Demo.stdout_any
              "a.png" Runs.world_a
              (snd (try_body Demo.no_fault Demo.decode Demo.lanczos Demo.encode_png Demo.stdout_any
                      "a.png" (Demo.in_dir "a.png") Runs.world_a))
              Runs.native_a Runs.cropped_a)
    as (t & r & Ht & _ & Hsize & Hdisk & _ & _).
  - reflexivity.
  - reflexivity.
  - vm_compute. reflexivity.
  - vm_compute. reflexivity.
  - exists t, r. split; [exact Ht|]. split; [exact Hsize|].
    rewrite <- Hdisk. vm_compute. reflexivity.
Defined.

(** C1, counterexample.  a.png decodes to an opaque 21 x 7 image, so the
    cropped buffer is 21 x 7 and [floor(21 * 300 / 7)] is 900.  The script
    reports and saves 899 x 300: [300 / 7] rounds below 300/7 and the
    product rounds to the double just below 900.  No image of width 900
    is what the file holds afterwards. *)
Lemma width_below_exact_floor :
  let w1 := snd (Demo.run Demo.no_fault Runs.world_a) in
  Image_open Demo.no_fault Demo.decode (Demo.in_dir "a.png") Runs.world_a
    = (Ok Runs.native_a, Runs.world_a)
  ∧ autocrop (PIL.convert_RGBA Runs.native_a) = Ok Runs.cropped_a
  ∧ PIL.size Runs.cropped_a = (21, 7)
  ∧ Z.max 1 (21 * TARGET_HEIGHT / 7) = 900
  ∧ Float64.scaled TARGET_HEIGHT 21 7 = Some 899
  ∧ stdout w1 = [start_line;
                 "  Processed a.png: Cropped and resized to 899x300";
                 complete_line]
  ∧ disk w1 !! Demo.in_dir "a.png" = Some (File (Demo.bytes [3; 131; 1; 44]%N))
  ∧ ∀ r, PIL.size r = (Z.max 1 (21 * TARGET_HEIGHT / 7), TARGET_HEIGHT) →
         disk w1 !! Demo.in_dir "a.png" ≠ Some (File (Demo.encode_png r)).
Proof.
  cbv zeta.
  split; [reflexivity|]. split; [reflexivity|].
  split; [vm_compute; reflexivity|]. split; [vm_compute; reflexivity|].
  split; [vm_compute; reflexivity|]. split; [vm_compute; reflexivity|].
  split; [vm_compute; reflexivity|].
  intros r Hr Hdisk.
  assert (Hx : PIL.xsize r = 900%nat).
  { unfold PIL.size in Hr. injection Hr as Hx _.
    change (Z.max 1 (21 * TARGET_HEIGHT / 7)) with (Z.of_nat 900) in Hx. lia. }
  assert (Hy : PIL.ysize r = 300%nat).
  { unfold PIL.size in Hr. injection Hr as _ Hy.
    change TARGET_HEIGHT with (Z.of_nat 300) in Hy. lia. }
  unfold Demo.encode_png in Hdisk. rewrite Hx, Hy in Hdisk.
  vm_compute in Hdisk. discriminate.
Qed.

(** C2, at a JPEG.  photo.jpg decodes to an opaque 200 x 100 RGB image.
    The run converts it to RGBA, resizes it and calls save, whose JPEG
    writer refuses mode RGBA: the iteration prints the error line, and
    the file, already opened for writing, is left empty. *)
Theorem jpeg_input_is_not_saved :
  is_image_file "photo.jpg" = true
  ∧ Demo.run Demo.no_fault Runs.world_jpg
    = (Ok tt,
       World (<[Demo.in_dir "photo.jpg" := File []]> (disk Runs.world_jpg))
         [start_line;
          "Error processing photo.jpg: cannot write mode RGBA as JPEG";
          complete_line]).
Proof.
  split; [reflexivity|]. vm_compute. reflexivity.
Qed.





Example run_world_mixed :
  stdout (snd (Demo.run Demo.no_fault Runs.world_mixed))
  = [start_line;
     "  Processed a.png: Cropped and resized to 899x300";
     "Error processing g.png: cannot identify image file";
     "Error processing sub.png: [Errno 21] Is a directory: 'public/assets/boosters/sub.png'";
     complete_line].
Proof. vm_compute. reflexivity. Qed.

Lemma no_images_found_witness :
  Demo.run Demo.no_fault Runs.world_text
  = (Ok tt, World (disk Runs.world_text)
              ["No image files found in the boosters directory."]).
Proof.
  apply (no_images_found Demo.no_fault Demo.decode Demo.lanczos Demo.encode_png Demo.stdout_any
           Runs.world_text ["notes.txt"]).
  - reflexivity.
  - reflexivity.
Defined.

(** C9, counterexample.  The directory holds one entry, a sub-directory
    named sub.png.  It is selected, its iteration runs, and opening it
    fails. *)
Lemma subdirectory_is_selected :
  disk Runs.world_subdir !! Demo.in_dir "sub.png" = Some (Dir ["inner.png"])
  ∧ list_image_files Demo.no_fault Runs.world_subdir
    = (Ok ["sub.png"], Runs.world_subdir)
  ∧ Demo.run Demo.no_fault Runs.world_subdir
    = (Ok tt,
       World (disk Runs.world_subdir)
         [start_line;
          "Error processing sub.png: [Errno 21] Is a directory: 'public/assets/boosters/sub.png'";
          complete_line]).
Proof.
  split; [reflexivity|]. split; [reflexivity|]. vm_compute. reflexivity.
Qed.

Lemma images_selected_by_name_suffix_witness :
  let names := ["a.png"; "g.png"; "notes.txt"; "sub.png"] in
  list_image_files Demo.no_fault Runs.world_mixed
    = (Ok (List.filter is_image_file names), Runs.world_mixed)
  ∧ ∀ f, In f (List.filter is_image_file names) ↔
         In f names
         ∧ ∃ stem suffix, In suffix [".png"; ".jpg"; ".jpeg"]
                          ∧ Str.lower f = stem +:+ suffix.
Proof.
  apply (images_selected_by_name_suffix Demo.no_fault Runs.world_mixed
           ["a.png"; "g.png"; "notes.txt"; "sub.png"]).
  reflexivity.
Defined.

(* ===================================================================== *)
(** ** More concrete runs                                                  *)
(* ===================================================================== *)

Lemma bordered_image_not_cropped_witness :
  ∃ c, autocrop (PIL.convert_RGBA Runs.native_a) = Ok c
       ∧ PIL.xsize c = 21%nat ∧ PIL.ysize c = 7%nat
       ∧ ∀ x y, (x < 21)%nat → (y < 7)%nat →
           PIL.getpixel c x y = PIL.getpixel (PIL.convert_RGBA Runs.native_a) x y.
Proof.
  apply (bordered_image_not_cropped (PIL.convert_RGBA Runs.native_a));
    exists 0%nat; unfold BBox.visible; simpl; lia.
Defined.

Lemma autocrop_idempotent_witness :
  let c := match autocrop strip_4x3 with Ok c => c | Raise _ => strip_4x3 end in
  PIL.size c = (2, 1)
  ∧ ∃ c', autocrop c = Ok c'
          ∧ PIL.xsize c' = PIL.xsize c ∧ PIL.ysize c' = PIL.ysize c
          ∧ ∀ x y, (x < PIL.xsize c)%nat → (y < PIL.ysize c)%nat →
              PIL.getpixel c' x y = PIL.getpixel c x y.
Proof.
  split; [reflexivity|].
  apply (autocrop_idempotent strip_4x3). reflexivity.
Defined.

Lemma image_without_alpha_not_cropped_witness :
  ∃ c, autocrop (PIL.convert_RGBA Runs.native_a) = Ok c
       ∧ PIL.size c = (21, 7)
       ∧ ∀ x y, (x < 21)%nat → (y < 7)%nat →
           PIL.getpixel c x y = PIL.getpixel (PIL.convert_RGBA Runs.native_a) x y
           ∧ PIL.alpha (PIL.getpixel c x y) = 255%N.
Proof.
  apply (image_without_alpha_not_cropped 21 7 Runs.native_a).
  left. eexists. reflexivity.
Defined.


Lemma new_size_exact_when_height_divides_witness :
  new_size 200 100 = Ok (Z.max 1 (200 * (TARGET_HEIGHT / 100)), TARGET_HEIGHT).
Proof.
  apply (new_size_exact_when_height_divides 200 100).
  - lia.
  - lia.
  - vm_compute. reflexivity.
  - reflexivity.
Defined.

Lemma target_height_image_not_resampled_witness :
  let img := PIL.Image 2 300 (fun _ _ => PIL.RGBA 1 2 3 255) in
  new_size 2 300 = Ok (PIL.size img)
  ∧ PIL.resize Demo.lanczos img (PIL.size img) = Ok img.
Proof.
  apply (target_height_image_not_resampled Demo.lanczos
           (PIL.Image 2 300 (fun _ _ => PIL.RGBA 1 2 3 255))).
  - reflexivity.
  - simpl. lia.
  - vm_compute. reflexivity.
Defined.



Lemma jpeg_never_processed_witness :
  (∃ line d,
     loop_body Demo.no_fault Demo.decode Demo.lanczos Demo.encode_png Demo.stdout_any
       "photo.jpg" Runs.world_jpg
     = (Ok tt, World d ([] ++ [line]))
     ∧ (line = skipped_line "photo.jpg" ∨ ∃ e, line = error_line "photo.jpg" e))
  ∨ (∃ e cause d,
       loop_body Demo.no_fault Demo.decode Demo.lanczos Demo.encode_png Demo.stdout_any
         "photo.jpg" Runs.world_jpg
       = (Raise e, World d [])
       ∧ print_error Demo.stdout_any (error_line "photo.jpg" cause) = Some e).
Proof.
  apply (jpeg_never_processed Demo.no_fault Demo.decode Demo.lanczos Demo.encode_png Demo.stdout_any
           "photo.jpg" Runs.world_jpg).
  reflexivity.
Defined.


Lemma processed_line_means_saved_witness :
  ∃ new_width resized_img,
    "  Processed a.png: Cropped and resized to 899x300"
      = processed_line "a.png" new_width TARGET_HEIGHT
    ∧ 1 <= new_width
    ∧ PIL.size resized_img = (new_width, TARGET_HEIGHT)
    ∧ disk (snd (loop_body Demo.no_fault Demo.decode Demo.lanczos Demo.encode_png Demo.stdout_any
                   "a.png" Runs.world_a))
      = <[OsPath.join BOOSTERS_DIR "a.png" := File (Demo.encode_png resized_img)]>
          (disk Runs.world_a).
Proof.
  apply (processed_line_means_saved
           Demo.no_fault Demo.decode Demo.lanczos Demo.encode_png Demo.stdout_any
           "a.png" Runs.world_a "  Processed a.png: Cropped and resized to 899x300").
  - vm_compute. reflexivity.
  - reflexivity.
Defined.
